(** * daily-aws-news: the digest handler, its publication window and its
      feed, translation, tag and rendering steps

    A shallow embedding of the Lambda handler that assembles the daily
    digest (the [handler] of the digest function, with its helpers
    [getMetadata], [translate] and [getFeed]), and the properties of the
    specification that were checked against it. The function that draws
    the thumbnail of the article after it is embedded in [Thumbnail], and
    the last part of the file holds further properties of both.

    Conventions of the embedding:
    - a JavaScript [Date] is its time value: an integral number of
      milliseconds since the epoch, or [None] for an invalid date (NaN);
    - a number read from a date is [option Z], [None] standing for NaN;
    - a value that may be [undefined] is an [option];
    - an [async] function returns its settlement ([Resolved]/[Rejected])
      together with the lines it wrote to [console.error];
    - the collaborators the handler calls (feed parser, translation
      client, object store, date and locale formatting, the markdown
      serialiser, the configuration module) are the fields of [Env], the
      parameter of every function of the handler;
    - time values stay within the range of the standard ([TimeClip]), so
      the statements about dates are about execution times a few days
      inside that range. *)

From stdpp Require Import base numbers list strings gmap.
From Stdlib Require Import ZArith Lia Ascii.

Open Scope Z_scope.

(* ===================================================================== *)
(** * JavaScript built-ins used by the handler *)
(* ===================================================================== *)

Module JS.

(** ** Numbers and time values (ECMA-262, "Date Objects") *)

(** A number that is integral or NaN. *)
Definition Number : Type := option Z.

(** The time value of a Date object; [None] is an invalid date. *)
Definition Date : Type := option Z.

Definition msPerDay : Z := 86400000.
Definition msPerHour : Z := 3600000.
Definition msPerMinute : Z := 60000.
Definition msPerSecond : Z := 1000.

(** The largest magnitude of a time value: 100,000,000 days. *)
Definition maxTime : Z := 8640000000000000.

Definition TimeClip (t : Z) : Date :=
  if Z.abs t <=? maxTime then Some t else None.

Definition Day (t : Z) : Z := t / msPerDay.
Definition TimeWithinDay (t : Z) : Z := t mod msPerDay.
Definition HourFromTime (t : Z) : Z := (t / msPerHour) mod 24.
Definition MinFromTime (t : Z) : Z := (t / msPerMinute) mod 60.
Definition SecFromTime (t : Z) : Z := (t / msPerSecond) mod 60.
Definition msFromTime (t : Z) : Z := t mod msPerSecond.

(** 0 is Sunday, ..., 6 is Saturday; day 0 (1 January 1970) is a Thursday. *)
Definition WeekDay (t : Z) : Z := (Day t + 4) mod 7.

Definition DaysInYear (y : Z) : Z :=
  if negb (y mod 4 =? 0) then 365
  else if negb (y mod 100 =? 0) then 366
  else if negb (y mod 400 =? 0) then 365
  else 366.

Definition DayFromYear (y : Z) : Z :=
  365 * (y - 1970) + (y - 1969) / 4 - (y - 1901) / 100 + (y - 1601) / 400.

Definition TimeFromYear (y : Z) : Z := msPerDay * DayFromYear y.

(** The largest [y] with [TimeFromYear y <= t]: the mean year has
    146097/400 days, so the quotient is off by at most one year. *)
Definition YearFromTime (t : Z) : Z :=
  let d := Day t in
  let y := 1970 + (400 * d) / 146097 in
  if d <? DayFromYear y then y - 1
  else if DayFromYear (y + 1) <=? d then y + 1
  else y.

Definition InLeapYear (t : Z) : Z :=
  if DaysInYear (YearFromTime t) =? 366 then 1 else 0.

Definition DayWithinYear (t : Z) : Z := Day t - DayFromYear (YearFromTime t).

(** Number of days of the year before month [m] (0 = January). *)
Definition daysBeforeMonth (m leap : Z) : Z :=
  match m with
  | 0 => 0
  | 1 => 31
  | 2 => 59 + leap
  | 3 => 90 + leap
  | 4 => 120 + leap
  | 5 => 151 + leap
  | 6 => 181 + leap
  | 7 => 212 + leap
  | 8 => 243 + leap
  | 9 => 273 + leap
  | 10 => 304 + leap
  | _ => 334 + leap
  end.

Definition MonthFromTime (t : Z) : Z :=
  let d := DayWithinYear t in
  let leap := InLeapYear t in
  if d <? 31 then 0
  else if d <? 59 + leap then 1
  else if d <? 90 + leap then 2
  else if d <? 120 + leap then 3
  else if d <? 151 + leap then 4
  else if d <? 181 + leap then 5
  else if d <? 212 + leap then 6
  else if d <? 243 + leap then 7
  else if d <? 273 + leap then 8
  else if d <? 304 + leap then 9
  else if d <? 334 + leap then 10
  else 11.

(** Day of the month, 1 to 31. *)
Definition DateFromTime (t : Z) : Z :=
  DayWithinYear t - daysBeforeMonth (MonthFromTime t) (InLeapYear t) + 1.

Definition MakeTime (hour min sec ms : Z) : Z :=
  hour * msPerHour + min * msPerMinute + sec * msPerSecond + ms.

(** The day number of day [date] of month [month] of [year]; months
    and days out of range carry over. *)
Definition MakeDay (year month date : Z) : Z :=
  let ym := year + month / 12 in
  let mn := month mod 12 in
  let leap := if DaysInYear ym =? 366 then 1 else 0 in
  DayFromYear ym + daysBeforeMonth mn leap + date - 1.

Definition MakeDate (day time : Z) : Z := day * msPerDay + time.

Definition Number_add (a : Number) (k : Z) : Number := (λ x, x + k) <$> a.
Definition Number_sub (a : Number) (k : Z) : Number := (λ x, x - k) <$> a.

(** [a != k]: NaN differs from every number. *)
Definition Number_neq (a : Number) (k : Z) : bool :=
  match a with
  | Some x => negb (x =? k)
  | None => true
  end.

(** [a > b] and [a <= b] on dates compare the time values; a comparison with
    NaN is false. *)
Definition Date_gt (a b : Date) : bool :=
  match a, b with
  | Some x, Some y => y <? x
  | _, _ => false
  end.

Definition Date_le (a b : Date) : bool :=
  match a, b with
  | Some x, Some y => x <=? y
  | _, _ => false
  end.

Section LocalTime.

(** Offset of local time from UTC, in milliseconds. The function runs
    with the platform's default zone, UTC, where it is 0; a fixed
    offset is all the embedding assumes. *)
Variable LocalTZA : Z.

Definition LocalTime (t : Z) : Z := t + LocalTZA.
Definition UTC (t : Z) : Z := t - LocalTZA.

Definition getHours (d : Date) : Number := (λ t, HourFromTime (LocalTime t)) <$> d.
Definition getMinutes (d : Date) : Number := (λ t, MinFromTime (LocalTime t)) <$> d.
Definition getDate (d : Date) : Number := (λ t, DateFromTime (LocalTime t)) <$> d.
Definition getDay (d : Date) : Number := (λ t, WeekDay (LocalTime t)) <$> d.

(** [d.setHours(hour, min, sec, ms)] *)
Definition setHours (d : Date) (hour min sec ms : Z) : Date :=
  match d with
  | Some t0 =>
      let t := LocalTime t0 in
      TimeClip (UTC (MakeDate (Day t) (MakeTime hour min sec ms)))
  | None => None
  end.

(** [d.setDate(dt)] *)
Definition setDate (d : Date) (dt : Number) : Date :=
  match d, dt with
  | Some t0, Some date =>
      let t := LocalTime t0 in
      TimeClip (UTC (MakeDate (MakeDay (YearFromTime t) (MonthFromTime t) date)
                              (TimeWithinDay t)))
  | _, _ => None
  end.

End LocalTime.

End JS.

(* ===================================================================== *)
(** * The publication window (handler, the date computations) *)
(* ===================================================================== *)

Module Window.
Import JS.

Section PublicationWindow.

Variable LocalTZA : Z.

(** [const latestPubDate = new Date(executedDate)] and the
    normalisation that follows it. *)
Definition normalizeLatest (executedDate : Date) : Date :=
  let latestPubDate := executedDate in
  if Number_neq (getHours LocalTZA latestPubDate) 0
     || Number_neq (getMinutes LocalTZA latestPubDate) 0
  then
    let latestPubDate := setHours LocalTZA latestPubDate 0 0 0 0 in
    setDate LocalTZA latestPubDate (Number_add (getDate LocalTZA latestPubDate) 1)
  else latestPubDate.

(** [const oldestPubDate = new Date(latestPubDate)], one day back, and
    the [switch] on the day of the week of [latestPubDate]. The result
    is the pair [(oldestPubDate, latestPubDate)]. *)
Definition adjustWeekday (latestPubDate : Date) : Date * Date :=
  let oldestPubDate := latestPubDate in
  let oldestPubDate :=
    setDate LocalTZA oldestPubDate (Number_sub (getDate LocalTZA oldestPubDate) 1) in
  match getDay LocalTZA latestPubDate with
  | Some 6 =>
      let latestPubDate :=
        setDate LocalTZA latestPubDate (Number_add (getDate LocalTZA latestPubDate) 2) in
      (oldestPubDate, latestPubDate)
  | Some 0 =>
      let latestPubDate :=
        setDate LocalTZA latestPubDate (Number_add (getDate LocalTZA latestPubDate) 1) in
      let oldestPubDate :=
        setDate LocalTZA oldestPubDate (Number_sub (getDate LocalTZA oldestPubDate) 1) in
      (oldestPubDate, latestPubDate)
  | Some 1 =>
      let oldestPubDate :=
        setDate LocalTZA oldestPubDate (Number_sub (getDate LocalTZA oldestPubDate) 2) in
      (oldestPubDate, latestPubDate)
  | _ => (oldestPubDate, latestPubDate)
  end.

Definition pubDateWindow (executedDate : Date) : Date * Date :=
  adjustWeekday (normalizeLatest executedDate).

End PublicationWindow.

End Window.


(* ===================================================================== *)
(** * Strings, arrays and sets *)
(* ===================================================================== *)

Module JSString.

(** A string that may be [undefined]. *)
Definition MaybeString : Type := option string.

(** Truthiness of a string or [undefined]: only a non-empty string is
    truthy. *)
Definition truthy (v : MaybeString) : bool :=
  match v with
  | Some s => negb (String.eqb s "")
  | None => false
  end.

(** [a || b] *)
Definition or_else (a b : MaybeString) : MaybeString :=
  if truthy a then a else b.

(** A value interpolated in a template literal. *)
Definition interpolate (v : MaybeString) : string :=
  match v with
  | Some s => s
  | None => "undefined"
  end.

(** [s.split(sep)] for a separator of one character: the pieces between
    the separators, at least one piece. *)
Fixpoint split (sep : Ascii.ascii) (s : string) : list string :=
  match s with
  | EmptyString => [EmptyString]
  | String c s' =>
      if Ascii.eqb c sep then EmptyString :: split sep s'
      else match split sep s' with
           | piece :: pieces => String c piece :: pieces
           | [] => [String c EmptyString]
           end
  end.

(** [s.startsWith(p)] *)
Definition startsWith (p s : string) : bool := String.prefix p s.

Fixpoint dropChars (n : nat) (s : string) : string :=
  match n, s with
  | O, _ => s
  | S n', String _ s' => dropChars n' s'
  | S _, EmptyString => EmptyString
  end.

(** [s.replace(p, r)] for a string pattern: the first occurrence of [p],
    if there is one, is replaced ([r] has no [$] pattern here). *)
Fixpoint replace (p r s : string) : string :=
  if String.prefix p s then r +:+ dropChars (String.length p) s
  else match s with
       | EmptyString => EmptyString
       | String c s' => String c (replace p r s')
       end.

(** [s.replace(/c/g, '')]: every occurrence of the character is removed. *)
Fixpoint removeAll (c : Ascii.ascii) (s : string) : string :=
  match s with
  | EmptyString => EmptyString
  | String x s' => if Ascii.eqb x c then removeAll c s' else String x (removeAll c s')
  end.

(** A [Set] of strings keeps its members in insertion order;
    [Array.from(new Set(l))] lists them. *)
Definition Set_add (members : list string) (x : string) : list string :=
  if decide (x ∈ members) then members else members ++ [x].

Definition Array_from_Set (l : list string) : list string := foldl Set_add [] l.

End JSString.

(* ===================================================================== *)
(** * Promises *)
(* ===================================================================== *)

Module Promise.

Definition Error : Type := string.

(** How an awaited call settles. *)
Inductive Settled (A : Type) : Type :=
  | Resolved (a : A)
  | Rejected (e : Error).
Arguments Resolved {A} a.
Arguments Rejected {A} e.

(** An [async] computation: its settlement and what it wrote to
    [console.error], in order. *)
Record Async (A : Type) : Type := mkAsync {
  settled : Settled A;
  console : list Error;
}.
Arguments mkAsync {A} settled console.
Arguments settled {A} _.
Arguments console {A} _.

#[export] Instance Async_ret : MRet Async := λ A a, mkAsync (Resolved a) [].

#[export] Instance Async_bind : MBind Async := λ A B f m,
  match settled m with
  | Resolved a => mkAsync (settled (f a)) (console m ++ console (f a))
  | Rejected e => mkAsync (Rejected e) (console m)
  end.

(** [await] of a call that has settled. *)
Definition await {A} (s : Settled A) : Async A := mkAsync s [].

Definition console_error (e : Error) : Async unit := mkAsync (Resolved ()) [e].

(** [Promise.map(l, mapper, { concurrency })]: the mapper runs once on
    every element and the promise rejects as soon as one call rejects.
    The calls are independent of each other (each touches its own element
    and the collaborators answer a call by its arguments alone), so the
    order and the number in flight do not show in the result; the
    embedding runs them in array order. *)
Fixpoint map {A B} (mapper : A → Async B) (l : list A) : Async (list B) :=
  match l with
  | [] => mret []
  | x :: l' =>
      y ← mapper x;
      ys ← map mapper l';
      mret (y :: ys)
  end.

(** [for await (let x of l) { ... }] with the variables the body updates
    as an accumulator. *)
Fixpoint forOf {A S} (body : S → A → Async S) (l : list A) (acc : S) : Async S :=
  match l with
  | [] => mret acc
  | x :: l' =>
      acc' ← body acc x;
      forOf body l' acc'
  end.

End Promise.

(* ===================================================================== *)
(** * The digest handler *)
(* ===================================================================== *)

Module Digest.
Import JS JSString Promise Window.

(** ** Data *)

(** The input the state machine passes to the handler ([Event]). *)
Module Event.
Record t : Type := mk {
  lang : string;
  time : string;
  isDraft : bool;
}.
End Event.

(** An entry of a parsed feed ([Parser.Item]); every field may be
    missing. *)
Module Item.
Record t : Type := mk {
  title : MaybeString;
  link : MaybeString;
  pubDate : MaybeString;
  contentSnippet : MaybeString;
  categories : option (list string);
}.
(** [item.title = v] and [item.contentSnippet = v] *)
Definition set_title (v : MaybeString) (item : t) : t :=
  mk v (link item) (pubDate item) (contentSnippet item) (categories item).
Definition set_contentSnippet (v : MaybeString) (item : t) : t :=
  mk (title item) (link item) (pubDate item) v (categories item).
End Item.

(** What [parser.parseURL] resolves to, as far as the handler reads it. *)
Module Feed.
Record t : Type := mk {
  title : MaybeString;
  items : list Item.t;
}.
End Feed.

(** The configuration module ([source] of [./config]), with the fields
    the handler reads. Its values are a parameter of the handler. *)
Module Config.
Record LocalizedTitle : Type := mkTitle { ja : string; en : string }.
Record Playlist : Type := mkPlaylist { playlist_id : string; playlist_title : LocalizedTitle }.
Record JapanBlog : Type := mkJapanBlog { japanBlog_category : string; japanBlog_title : LocalizedTitle }.
Record Blog : Type := mkBlog { blog_category : string }.
Record GithubRepo : Type := mkRepo { repo_name : string; repo_title : string }.
Record Source : Type := mkSource {
  youtube_playlists : list Playlist;
  awsJapanBlogs : list JapanBlog;
  awsBlogs : list Blog;
  githubRepos : list GithubRepo;
}.
End Config.

(** [contentData]: the entries of [data.youtube] and [data.blogs]
    ([Channel]) and of [data.oss] ([Project]). *)
Module Channel.
Record t : Type := mk { title : string; items : list Item.t }.
End Channel.

Module Project.
Record t : Type := mk { title : string; link : string; items : list Item.t }.
End Project.

Record contentData : Type := mkData {
  announcements : list Item.t;
  youtube : list Channel.t;
  blogs : list Channel.t;
  oss : list Project.t;
}.

Module FrontMatter.
Record t : Type := mk {
  draft : bool;
  isCJKLanguage : bool;
  title : string;
  description : string;
  date : string;
  lastmod : string;
  categories : list string;
  series : list string;
  tags : list string;
}.
End FrontMatter.

(** The calls made on the markdown builder, in order; [toMarkdown]
    serialises them. *)
Inductive MdCall : Type :=
  | headerOrdered (ordered : bool)
  | text (s : string)
  | newline
  | h3 (s : string)
  | h4 (s : string)
  | bold (s : string)
  | blockQuote (s : string).

Definition MarkdownBuilder : Type := list MdCall.

Record TranslateTextCommand : Type := mkTranslateText {
  Text : MaybeString;
  SourceLanguageCode : string;
  TargetLanguageCode : string;
}.

Record TranslateTextOutput : Type := mkTranslated { TranslatedText : MaybeString }.

Record HeadObjectCommand : Type := mkHead { head_Bucket : string; head_Key : string }.

Record HeadObjectOutput : Type := mkHeadOutput { head_Metadata : option (gmap string string) }.

Record PutObjectCommand : Type := mkPut {
  put_Bucket : string;
  put_Key : string;
  put_Body : string;
  put_ContentType : string;
  put_Metadata : gmap string string;
}.

(** [CreateThumbnailInputPayload], what the handler returns. *)
Module Payload.
Record t : Type := mk {
  lang : string;
  title : string;
  description : string;
  pubDateRange : string;
  urlPath : string;
}.
End Payload.

(** ** Collaborators

    The services and library functions the handler calls and the two
    environment variables it reads. A service answers a call by its
    arguments alone during one run. *)
Record Env : Type := mkEnv {
  LocalTZA : Z;
  Date_parse : string → option Z;
  Date_toISOString : Z → string;
  Date_toLocaleString : Date → string → string → string;
  JSON_stringify : FrontMatter.t → string;
  toMarkdown : MarkdownBuilder → string;
  parseURL : string → Settled Feed.t;
  TranslateClient_send : TranslateTextCommand → Settled TranslateTextOutput;
  S3Client_head : HeadObjectCommand → Settled HeadObjectOutput;
  S3Client_put : PutObjectCommand → Settled unit;
  bucketName : string;
  hugoContentPath : string;
  source : Config.Source;
}.

(** The values of the handler's local variables when the document has
    been built, before it is written. *)
Record Locals : Type := mkLocals {
  oldestPubDate : Date;
  latestPubDate : Date;
  pubDateRange : string;
  articleTitle : string;
  articleDescription : string;
  urlPath : string;
  objectKey : string;
  frontMatter : FrontMatter.t;
  data : contentData;
  mdBody : MarkdownBuilder;
}.

(** ** The functions of the handler's module *)

Section Handler.

Variable env : Env.

(** [new Date(v)] for a string or [undefined]. *)
Definition new_Date (v : MaybeString) : Date :=
  match v with
  | Some s =>
      match Date_parse env s with
      | Some t => TimeClip t
      | None => None
      end
  | None => None
  end.

(** [d.toISOString()] throws on an invalid date. *)
Definition toISOString (d : Date) : Settled string :=
  match d with
  | Some t => Resolved (Date_toISOString env t)
  | None => Rejected "RangeError: Invalid time value"
  end.

(** [getMetadata]: the metadata of an object of the store. *)
Definition getMetadata (bucket key metadataKey : string) : Async MaybeString :=
  let cmd := mkHead bucket key in
  match S3Client_head env cmd with
  | Resolved out =>
      let val :=
        match head_Metadata out with
        | Some Metadata => Metadata !! metadataKey
        | None => None
        end in
      mret val
  | Rejected error => mret None
  end.

(** [translate]: translation by the translation service. *)
Definition translate (text : MaybeString) (sourceLanguageCode targetLanguageCode : string)
  : Async MaybeString :=
  let cmd := mkTranslateText text sourceLanguageCode targetLanguageCode in
  out ← await (TranslateClient_send env cmd);
  mret (or_else (TranslatedText out) text).

(** [getFeed]: the entries of a feed published in the given range. *)
Definition getFeed (feedUrl : string) (oldestPubDate latestPubDate : Date) : Async Feed.t :=
  match parseURL env feedUrl with
  | Resolved feed =>
      let items :=
        List.filter
          (λ item,
             let pubDate := new_Date (Item.pubDate item) in
             Date_gt pubDate oldestPubDate && Date_le pubDate latestPubDate)
          (Feed.items feed) in
      mret (Feed.mk (Feed.title feed) items)
  | Rejected err =>
      _ ← console_error err;
      mret (Feed.mk (Some "error") [])
  end.

(** The items [getFeed] resolves to. *)
Definition itemsInRange (feedUrl : string) (oldestPubDate latestPubDate : Date)
  : list Item.t :=
  match settled (getFeed feedUrl oldestPubDate latestPubDate) with
  | Resolved feed => Feed.items feed
  | Rejected _ => []
  end.

(** *** The handler, step by step *)

(** [pubDateRange] *)
Definition formatRange (lang : string) (oldestPubDate latestPubDate : Date) : string :=
  if String.eqb lang "ja"
  then Date_toLocaleString env oldestPubDate "ja-JP" "Asia/Tokyo" +:+ " ~ "
       +:+ Date_toLocaleString env latestPubDate "ja-JP" "Asia/Tokyo" +:+ " (JST)"
  else Date_toLocaleString env oldestPubDate "en-US" "UCT" +:+ " ~ "
       +:+ Date_toLocaleString env latestPubDate "en-US" "UTC" +:+ " (UTC)".

(** The translation batches: [Promise.map] over the items, each call
    storing its result in its own item. *)
Definition translateSnippets (lang : string) (items : list Item.t) : Async (list Item.t) :=
  Promise.map
    (λ item,
       t ← translate (Item.contentSnippet item) "en" lang;
       mret (Item.set_contentSnippet t item))
    items.

Definition translateTitles (sourceLang lang : string) (items : list Item.t)
  : Async (list Item.t) :=
  Promise.map
    (λ item,
       t ← translate (Item.title item) sourceLang lang;
       mret (Item.set_title t item))
    items.

(** The product tags of one announcement. *)
Definition products (item : Item.t) : list string :=
  let categories :=
    match Item.categories item with
    | Some cs => flat_map (split ","%char) cs
    | None => []
    end in
  List.map (replace "general:products/" "")
           (List.filter (startsWith "general:products/") categories).

(** The announcements: the items, translated unless the language is
    English, and the tags pushed to [frontMatter.tags]. *)
Definition announcementsFeedUrl : string := "https://aws.amazon.com/new/feed/".

Definition fetchAnnouncements (lang : string) (oldestPubDate latestPubDate : Date)
  : Async (list string * list Item.t) :=
  let feedUrl := announcementsFeedUrl in
  feed ← getFeed feedUrl oldestPubDate latestPubDate;
  let items := Feed.items feed in
  items ← (if negb (String.eqb lang "en") then translateSnippets lang items else mret items);
  mret (flat_map products items, items).

(** The feed address and the title of each configured source. *)
Definition localized (lang : string) (title : Config.LocalizedTitle) : string :=
  if String.eqb lang "ja" then Config.ja title else Config.en title.

Definition playlistFeedUrl (playlist : Config.Playlist) : string :=
  "https://www.youtube.com/feeds/videos.xml?playlist_id=" +:+ Config.playlist_id playlist.

Definition japanBlogFeedUrl (blog : Config.JapanBlog) : string :=
  "https://aws.amazon.com/jp/blogs/" +:+ Config.japanBlog_category blog +:+ "/feed/".

Definition blogFeedUrl (blog : Config.Blog) : string :=
  "https://aws.amazon.com/blogs/" +:+ Config.blog_category blog +:+ "/feed/".

Definition repoUrl (repo : Config.GithubRepo) : string :=
  "https://github.com/" +:+ Config.repo_name repo +:+ "/".

Definition repoFeedUrl (repo : Config.GithubRepo) : string :=
  "https://github.com/" +:+ Config.repo_name repo +:+ "/releases.atom".

(** The bodies of the four loops over the configured sources; each
    pushes to its list when the feed has items in the range. *)
Definition playlistBody (lang : string) (oldestPubDate latestPubDate : Date)
    (youtube : list Channel.t) (playlist : Config.Playlist) : Async (list Channel.t) :=
  let playlistTitle := localized lang (Config.playlist_title playlist) in
  let feedUrl := playlistFeedUrl playlist in
  feed ← getFeed feedUrl oldestPubDate latestPubDate;
  let items := Feed.items feed in
  if (0 <? length items)%nat then
    items ← (if negb (String.eqb lang "ja") then translateTitles "ja" lang items
             else mret items);
    mret (youtube ++ [Channel.mk playlistTitle items])
  else mret youtube.

Definition japanBlogBody (lang : string) (oldestPubDate latestPubDate : Date)
    (blogs : list Channel.t) (blog : Config.JapanBlog) : Async (list Channel.t) :=
  let blogTitle := localized lang (Config.japanBlog_title blog) in
  let feedUrl := japanBlogFeedUrl blog in
  feed ← getFeed feedUrl oldestPubDate latestPubDate;
  let items := Feed.items feed in
  if (0 <? length items)%nat then
    items ← (if negb (String.eqb lang "ja") then translateTitles "ja" lang items
             else mret items);
    mret (blogs ++ [Channel.mk blogTitle items])
  else mret blogs.

Definition blogBody (lang : string) (oldestPubDate latestPubDate : Date)
    (blogs : list Channel.t) (blog : Config.Blog) : Async (list Channel.t) :=
  let feedUrl := blogFeedUrl blog in
  feed ← getFeed feedUrl oldestPubDate latestPubDate;
  let blogTitle := Feed.title feed in
  let items := Feed.items feed in
  if (0 <? length items)%nat then
    items ← (if negb (String.eqb lang "en") then translateTitles "en" lang items
             else mret items);
    mret (blogs ++ [Channel.mk (interpolate blogTitle) items])
  else mret blogs.

Definition repoBody (oldestPubDate latestPubDate : Date)
    (oss : list Project.t) (repo : Config.GithubRepo) : Async (list Project.t) :=
  let repoUrl := repoUrl repo in
  let feedUrl := repoFeedUrl repo in
  feed ← getFeed feedUrl oldestPubDate latestPubDate;
  let items := Feed.items feed in
  if (0 <? length items)%nat then
    mret (oss ++ [Project.mk (Config.repo_title repo) repoUrl items])
  else mret oss.

(** *** The document *)

Definition renderLink (item : Item.t) : string :=
  "[" +:+ interpolate (Item.title item) +:+ "](" +:+ interpolate (Item.link item) +:+ ")".

Definition renderAnnouncement (item : Item.t) : MarkdownBuilder :=
  [bold (renderLink item); newline; blockQuote (interpolate (Item.contentSnippet item))].

Definition renderEntry (item : Item.t) : MarkdownBuilder :=
  [text ("- " +:+ renderLink item); newline].

Definition announcementsHeader (lang : string) : string :=
  if String.eqb lang "ja" then "最近の発表" else "Recent Announcements".

Definition renderAnnouncements (lang : string) (announcements : list Item.t)
  : MarkdownBuilder :=
  h3 (announcementsHeader lang)
  :: (if (0 <? length announcements)%nat
      then flat_map renderAnnouncement announcements
      else [text "No updates."; newline]).

Definition renderYoutube (youtube : list Channel.t) : MarkdownBuilder :=
  if (0 <? length youtube)%nat then
    h3 "YouTube"
    :: flat_map
         (λ channel, h4 (Channel.title channel)
                     :: flat_map renderEntry (Channel.items channel))
         youtube
  else [].

Definition renderBlogs (blogs : list Channel.t) : MarkdownBuilder :=
  if (0 <? length blogs)%nat then
    h3 "AWS Blogs"
    :: flat_map
         (λ blog, h4 (Channel.title blog) :: newline
                  :: flat_map renderEntry (Channel.items blog))
         blogs
  else [].

Definition renderOss (oss : list Project.t) : MarkdownBuilder :=
  if (0 <? length oss)%nat then
    h3 "Open Source Project"
    :: flat_map
         (λ repo, h4 (Project.title repo)
                  :: flat_map renderEntry (Project.items repo))
         oss
  else [].

(** [mdBody] when the last section has been added. *)
Definition render (lang : string) (frontMatter : FrontMatter.t) (pubDateRange : string)
    (data : contentData) : MarkdownBuilder :=
  [headerOrdered false; text (JSON_stringify env frontMatter); newline]
  ++ [text pubDateRange; newline]
  ++ renderAnnouncements lang (announcements data)
  ++ renderYoutube (youtube data)
  ++ renderBlogs (blogs data)
  ++ renderOss (oss data).

(** The window of a run: [executedDate] and the two dates derived from
    it. *)
Definition window (event : Event.t) : Date * Date :=
  let executedDate := new_Date (Some (Event.time event)) in
  pubDateWindow (LocalTZA env) executedDate.

(** [frontMatter.date]: the stored date of the object if it has one,
    the execution time otherwise. *)
Definition frontMatterDate (objectKey : string) (executedDate : Date) : Async string :=
  stored ← getMetadata (bucketName env) objectKey "date";
  match stored with
  | Some d => if negb (String.eqb d "") then mret d else await (toISOString executedDate)
  | None => await (toISOString executedDate)
  end.

(** The handler up to the point where the document is complete. *)
Definition buildDocument (event : Event.t) : Async Locals :=
  let time := Event.time event in
  let isDraft := Event.isDraft event in
  let lang := Event.lang event in
  let executedDate := new_Date (Some time) in
  let '(oldestPubDate, latestPubDate) := window event in
  let pubDateRange := formatRange lang oldestPubDate latestPubDate in
  oldestISO ← await (toISOString oldestPubDate);
  let articleTitle := hd "" (split "T"%char oldestISO) in
  let articleDescription :=
    if String.eqb lang "ja" then "AWS関連のニュースヘッドライン" else "AWS News Headlines" in
  let urlPath := "headlines/" +:+ removeAll "-"%char articleTitle in
  let objectKey := hugoContentPath env +:+ "/" +:+ urlPath +:+ "/index." +:+ lang +:+ ".md" in
  date ← frontMatterDate objectKey executedDate;
  lastmod ← await (toISOString executedDate);
  '(tags, announcements) ← fetchAnnouncements lang oldestPubDate latestPubDate;
  youtube ← forOf (playlistBody lang oldestPubDate latestPubDate)
                  (Config.youtube_playlists (source env)) [];
  blogs ← forOf (japanBlogBody lang oldestPubDate latestPubDate)
                (Config.awsJapanBlogs (source env)) [];
  blogs ← forOf (blogBody lang oldestPubDate latestPubDate)
                (Config.awsBlogs (source env)) blogs;
  oss ← forOf (repoBody oldestPubDate latestPubDate)
              (Config.githubRepos (source env)) [];
  let frontMatter :=
    FrontMatter.mk isDraft (String.eqb lang "ja") articleTitle articleDescription
                   date lastmod ["news"] ["daily-aws"] (Array_from_Set tags) in
  let data := mkData announcements youtube blogs oss in
  mret (mkLocals oldestPubDate latestPubDate pubDateRange articleTitle articleDescription
                 urlPath objectKey frontMatter data
                 (render lang frontMatter pubDateRange data)).

(** [a.toString()] for an array of strings. *)
Definition Array_toString (a : list string) : string := String.concat "," a.

Definition putObjectCommand (l : Locals) : PutObjectCommand :=
  let fm := frontMatter l in
  mkPut (bucketName env) (objectKey l) (toMarkdown env (mdBody l))
        "text/markdown; charset=UTF-8"
        (list_to_map
           [("draft", if FrontMatter.draft fm then "true" else "false");
            ("date", FrontMatter.date fm);
            ("lastmod", FrontMatter.lastmod fm);
            ("categories", Array_toString (FrontMatter.categories fm));
            ("series", Array_toString (FrontMatter.series fm));
            ("tags", Array_toString (FrontMatter.tags fm))]).

Definition handler (event : Event.t) : Async Payload.t :=
  l ← buildDocument event;
  _ ← await (S3Client_put env (putObjectCommand l));
  mret (Payload.mk (Event.lang event) (articleTitle l) (articleDescription l)
                   (pubDateRange l) (urlPath l)).

End Handler.

(** The same deployment when the store answers the lookups of metadata
    by [head]: the store as a later run finds it. *)
Definition withHead (env : Env) (head : HeadObjectCommand → Settled HeadObjectOutput) : Env :=
  mkEnv (LocalTZA env) (Date_parse env) (Date_toISOString env) (Date_toLocaleString env)
        (JSON_stringify env) (toMarkdown env) (parseURL env) (TranslateClient_send env)
        head (S3Client_put env) (bucketName env) (hugoContentPath env) (source env).

End Digest.

(* ===================================================================== *)
(** * The thumbnail handler

    The function that runs after the digest handler and draws the
    thumbnail of the article: [asBuffer], [getObject], [putObject],
    [genThumbnailImage] and [handler]. A call of this module settles or
    stays pending for ever: the promise of [asBuffer] is settled by the
    events of a stream and by nothing else. *)
(* ===================================================================== *)

Module Thumbnail.
Import JSString Promise.

(** ** Buffers and streams *)

Definition Buffer : Type := list Byte.byte.

(** [Buffer.concat(chunks)] *)
Definition Buffer_concat (chunks : list Buffer) : Buffer := concat chunks.

(** What a readable stream emits, in order. *)
Inductive StreamEvent : Type :=
  | on_data (chunk : Buffer)
  | on_error (err : Error)
  | on_end.

Definition Readable : Type := list StreamEvent.

(** A call that settles or stays pending for ever ([None]). *)
Definition Task (A : Type) : Type := option (Settled A).

(** [await m] followed by [f]. *)
Definition andThen {A B} (m : Task A) (f : A → Task B) : Task B :=
  match m with
  | Some (Resolved a) => f a
  | Some (Rejected e) => Some (Rejected e)
  | None => None
  end.

(** The promise built in [asBuffer] and the array its handlers fill:
    [resolve] and [reject] do nothing once the promise has settled. *)
Record Collector : Type := mkCollector {
  chunks : list Buffer;
  promise : Task Buffer;
}.

Definition settle (p : Task Buffer) (s : Settled Buffer) : Task Buffer :=
  match p with
  | Some _ => p
  | None => Some s
  end.

(** The three listeners of [asBuffer]. *)
Definition emit (c : Collector) (ev : StreamEvent) : Collector :=
  match ev with
  | on_data chunk => mkCollector (chunks c ++ [chunk]) (promise c)
  | on_error err => mkCollector (chunks c) (settle (promise c) (Rejected err))
  | on_end => mkCollector (chunks c) (settle (promise c) (Resolved (Buffer_concat (chunks c))))
  end.

(** [asBuffer]: the bytes of a stream. *)
Definition asBuffer (stream : Readable) : Task Buffer :=
  promise (foldl emit (mkCollector [] None) stream).

(** ** The canvas

    The drawing calls made on the 2D context, each with the state of the
    context it uses; [toBuffer] encodes them. *)
Inductive Image : Type := decoded (source : Buffer).

Inductive DrawOp : Type :=
  | FillRect (fillStyle : string) (x y w h : Z)
  | DrawImage (image : Image) (dx dy dw dh : Z)
  | FillText (fillStyle font textBaseline text : string) (x y : Z).

Record Context2D : Type := mkContext {
  fillStyle : string;
  font : string;
  textBaseline : string;
  drawn : list DrawOp;
}.

(** A new context, with the defaults of the canvas. *)
Definition getContext : Context2D := mkContext "#000000" "10px sans-serif" "alphabetic" [].

Definition set_fillStyle (v : string) (c : Context2D) : Context2D :=
  mkContext v (font c) (textBaseline c) (drawn c).

Definition set_font (v : string) (c : Context2D) : Context2D :=
  mkContext (fillStyle c) v (textBaseline c) (drawn c).

Definition set_textBaseline (v : string) (c : Context2D) : Context2D :=
  mkContext (fillStyle c) (font c) v (drawn c).

Definition draw (op : DrawOp) (c : Context2D) : Context2D :=
  mkContext (fillStyle c) (font c) (textBaseline c) (drawn c ++ [op]).

Definition fillRect (x y w h : Z) (c : Context2D) : Context2D :=
  draw (FillRect (fillStyle c) x y w h) c.

Definition drawImage (image : Image) (dx dy dw dh : Z) (c : Context2D) : Context2D :=
  draw (DrawImage image dx dy dw dh) c.

Definition fillText (text : string) (x y : Z) (c : Context2D) : Context2D :=
  draw (FillText (fillStyle c) (font c) (textBaseline c) text x y) c.

(** A canvas when it is encoded: its size, the registered fonts and the
    drawing calls. *)
Record Canvas : Type := mkCanvas {
  canvas_width : Z;
  canvas_height : Z;
  canvas_fonts : list (string * string);
  canvas_drawn : list DrawOp;
}.

(** ** Commands and collaborators *)

Record GetObjectCommand : Type := mkGet { get_Bucket : string; get_Key : string }.

Record PutImageCommand : Type := mkPutImage {
  image_Bucket : string;
  image_Key : string;
  image_Body : Buffer;
  image_ContentType : string;
}.

(** The input of the handler: the output of the task before it. *)
Record Event : Type := mkEvent { Payload : Digest.Payload.t }.

(** The object store (the body of an answer to a read is a stream), the
    image library and the four environment variables of the function. *)
Record Env : Type := mkEnv {
  S3Client_get : GetObjectCommand → Settled Readable;
  S3Client_put : PutImageCommand → Settled unit;
  loadImage : Buffer → Settled Image;
  toBuffer : Canvas → Buffer;
  bucketName : string;
  hugoContentPath : string;
  iconPath : string;
  siteName : string;
}.

(** ** The functions of the module *)

Section Handler.

Variable env : Env.

Definition getObject (bucket key : string) : Task Buffer :=
  let cmd := mkGet bucket key in
  andThen (Some (S3Client_get env cmd)) (λ Body, asBuffer Body).

(** [putObject]; the content type defaults to [image/png]. *)
Definition putObject (bucket key : string) (body : Buffer) (contentType : MaybeString)
  : Task unit :=
  let contentType := match contentType with Some c => c | None => "image/png" end in
  let cmd := mkPutImage bucket key body contentType in
  Some (S3Client_put env cmd).

Definition size : Z * Z := (1200, 630).

Definition genThumbnailImage (title description pubDateRange lang : string) : Task Buffer :=
  let fonts := [("/etc/fonts/NotoSansJP-Bold.otf", "NotoSansJP")] in
  let '(width, height) := size in
  let context := getContext in
  let context := set_fillStyle "#F2F3F3" context in
  let context := fillRect 0 0 width height context in
  let context := set_fillStyle "#EB9D3F" context in
  let context := fillRect 60 68 1098 514 context in
  let context := set_fillStyle "#FFFFFF" context in
  let context := fillRect 48 54 1098 514 context in
  andThen (getObject (bucketName env) (iconPath env)) (λ cloudIcon,
  andThen (Some (loadImage env cloudIcon)) (λ image,
  let context := drawImage image 960 420 120 120 context in
  let context := set_textBaseline "middle" context in
  let context := set_fillStyle "#000000" context in
  let context := set_font "bold 62pt NotoSansJP" context in
  let context := fillText (siteName env +:+ " " +:+ title) 110 180 context in
  let context := set_fillStyle "#000000" context in
  let context := set_font "bold 30pt NotoSansJP" context in
  let context := fillText description 120 290 context in
  let context := set_fillStyle "#000000" context in
  let context := set_font "bold 20pt NotoSansJP" context in
  let context := fillText pubDateRange 120 480 context in
  Some (Resolved (toBuffer env (mkCanvas width height fonts (drawn context)))))).

Definition handler (event : Event) : Task unit :=
  let payload := Payload event in
  let title := Digest.Payload.title payload in
  let description := Digest.Payload.description payload in
  let pubDateRange := Digest.Payload.pubDateRange payload in
  let urlPath := Digest.Payload.urlPath payload in
  let lang := Digest.Payload.lang payload in
  andThen (genThumbnailImage title description pubDateRange lang) (λ thumbnailImage,
  let objectKey := hugoContentPath env +:+ "/" +:+ urlPath +:+ "/thumbnail." +:+ lang +:+ ".png" in
  putObject (bucketName env) objectKey thumbnailImage None).

End Handler.

End Thumbnail.

(* ===================================================================== *)
(** * Sample inputs

    A small deployment used to run the handler on concrete requests: two
    feeds answer, the others are unreachable, and the translation service
    fails on one text. The time strings are the instants
    2022-03-05T00:00:00Z (a Saturday) and 2022-03-01T00:00:30.500Z. *)
(* ===================================================================== *)

Module Sample.
Import JS JSString Promise Window Digest.

Definition saturday : Z := 1646438400000.
Definition halfPastMidnight : Z := 1646092830500.

Definition Date_parse (s : string) : option Z :=
  if String.eqb s "2022-03-05T00:00:00Z" then Some saturday
  else if String.eqb s "2022-03-01T00:00:30.500Z" then Some halfPastMidnight
  else if String.eqb s "Fri, 04 Mar 2022 00:00:00 +0000" then Some (saturday - msPerDay)
  else if String.eqb s "Fri, 04 Mar 2022 09:30:00 +0000" then Some (saturday - msPerDay + 34200000)
  else if String.eqb s "Mon, 07 Mar 2022 00:00:00 +0000" then Some (saturday + 2 * msPerDay)
  else if String.eqb s "Mon, 07 Mar 2022 00:00:01 +0000" then Some (saturday + 2 * msPerDay + 1000)
  else None.

Definition item (title pubDate : string) (categories : list string) : Item.t :=
  Item.mk (Some title) (Some ("https://example.com/" +:+ title)) (Some pubDate)
          (Some ("About " +:+ title)) (Some categories).

Definition atOldest : Item.t := item "at-oldest" "Fri, 04 Mar 2022 00:00:00 +0000" [].
Definition inside : Item.t :=
  item "inside" "Fri, 04 Mar 2022 09:30:00 +0000"
       ["general:products/aws-lambda,general:products/amazon-s3"; "marketing:marchitecture/serverless"].
Definition atLatest : Item.t :=
  item "at-latest" "Mon, 07 Mar 2022 00:00:00 +0000" ["general:products/aws-lambda"].
Definition afterLatest : Item.t := item "after-latest" "Mon, 07 Mar 2022 00:00:01 +0000" [].
Definition undated : Item.t := Item.mk (Some "undated") None None None None.

Definition announcementFeed : Feed.t :=
  Feed.mk (Some "What's New") [atOldest; inside; atLatest; afterLatest; undated].

Definition parseURL (url : string) : Settled Feed.t :=
  if String.eqb url "https://aws.amazon.com/new/feed/" then Resolved announcementFeed
  else if String.eqb url "https://aws.amazon.com/blogs/aws/feed/"
       then Resolved (Feed.mk (Some "AWS News Blog") [inside])
  else Rejected ("Status code 503: " +:+ url).

(** The service fails on one text, returns nothing for another and
    prefixes the others. *)
Definition TranslateClient_send (cmd : TranslateTextCommand) : Settled TranslateTextOutput :=
  match Text cmd with
  | Some s =>
      if String.eqb s "About at-latest" then Rejected "ThrottlingException"
      else if String.eqb s "inside" then Resolved (mkTranslated None)
      else Resolved (mkTranslated (Some (TargetLanguageCode cmd +:+ ":" +:+ s)))
  | None => Rejected "ValidationException"
  end.

Definition source : Config.Source :=
  Config.mkSource
    [Config.mkPlaylist "PL0000" (Config.mkTitle "playlist-ja" "playlist-en")]
    [Config.mkJapanBlog "news" (Config.mkTitle "blog-ja" "blog-en")]
    [Config.mkBlog "aws"]
    [Config.mkRepo "aws/aws-cdk" "AWS CDK"].

(** The store holds no earlier object. *)
Definition env : Env :=
  mkEnv 0 Date_parse (λ _, "2022-03-04T00:00:00.000Z")
        (λ d _ _, match d with Some _ => "3/4/2022" | None => "Invalid Date" end)
        (λ fm, FrontMatter.date fm) (λ _, "")
        parseURL TranslateClient_send
        (λ _, Rejected "NotFound") (λ _, Resolved ())
        "bucket" "content" source.

(** The same deployment with an earlier object whose metadata carry a
    date. *)
Definition envStored (date : string) : Env :=
  mkEnv 0 Date_parse (λ _, "2022-03-04T00:00:00.000Z")
        (λ d _ _, match d with Some _ => "3/4/2022" | None => "Invalid Date" end)
        (λ fm, FrontMatter.date fm) (λ _, "")
        parseURL TranslateClient_send
        (λ _, Resolved (mkHeadOutput (Some {[ "date" := date ]}))) (λ _, Resolved ())
        "bucket" "content" source.

(** The run of Saturday 2022-03-05 at 00:00 UTC, whose window holds two
    announcements and one blog entry, and the run of Tuesday 2022-03-01
    at 00:00:30.5 UTC, whose window holds nothing. *)
Definition saturdayRun (lang : string) : Event.t := Event.mk lang "2022-03-05T00:00:00Z" false.
Definition tuesdayRun (lang : string) : Event.t := Event.mk lang "2022-03-01T00:00:30.500Z" true.

(** A second deployment, in which the translation service answers every
    request with the text it was given, the time string of the draft run
    of Friday 2022-03-04 at 22:00 UTC is known and the ISO strings of the
    execution times differ. *)
Definition fridayEvening : Z := saturday - 7200000.

Definition Date_parse_evening (s : string) : option Z :=
  if String.eqb s "2022-03-04T22:00:00Z" then Some fridayEvening else Date_parse s.

Definition Date_toISOString (t : Z) : string :=
  if t =? fridayEvening then "2022-03-04T22:00:00.000Z"
  else if t =? saturday then "2022-03-05T00:00:00.000Z"
  else "2022-03-04T00:00:00.000Z".

Definition envHealthy : Env :=
  mkEnv 0 Date_parse_evening Date_toISOString
        (λ d _ _, match d with Some _ => "3/4/2022" | None => "Invalid Date" end)
        (λ fm, FrontMatter.date fm) (λ _, "")
        parseURL (λ cmd, Resolved (mkTranslated (Text cmd)))
        (λ _, Rejected "NotFound") (λ _, Resolved ())
        "bucket" "content" source.

Definition draftRun (lang : string) : Event.t := Event.mk lang "2022-03-04T22:00:00Z" true.

(** A request whose time is not a date. *)
Definition unreadableRun : Event.t := Event.mk "en" "yesterday" false.

(** The deployment of the thumbnail function: the icon arrives in two
    chunks. *)
Definition iconStream : Thumbnail.Readable :=
  [Thumbnail.on_data [Byte.x89; Byte.x50]; Thumbnail.on_data [Byte.x4e; Byte.x47];
   Thumbnail.on_end].

Definition thumbnailEnv : Thumbnail.Env :=
  Thumbnail.mkEnv (λ _, Resolved iconStream) (λ _, Resolved ())
                  (λ b, Resolved (Thumbnail.decoded b)) (λ _, [])
                  "bucket" "content" "static/icon.png" "Daily AWS".

(** The same deployment when the stream of the icon breaks after its
    first chunk. *)
Definition brokenIconEnv : Thumbnail.Env :=
  Thumbnail.mkEnv
    (λ _, Resolved [Thumbnail.on_data [Byte.x89; Byte.x50]; Thumbnail.on_error "ECONNRESET";
                    Thumbnail.on_end])
    (λ _, Resolved ()) (λ b, Resolved (Thumbnail.decoded b)) (λ _, [])
    "bucket" "content" "static/icon.png" "Daily AWS".

End Sample.

(* ===================================================================== *)
(** * Properties *)
(* ===================================================================== *)

Import JS JSString Promise Window Digest.

(** ** Dates *)

Lemma MonthFromTime_range t : 0 <= MonthFromTime t <= 11.
Proof.
  unfold MonthFromTime.
  repeat match goal with |- context [if ?b then _ else _] => destruct b end; lia.
Qed.

(** Setting the day of the month relative to the current one moves the
    day number by the difference, across the ends of months and years. *)
Lemma MakeDay_DateFromTime t k :
  MakeDay (YearFromTime t) (MonthFromTime t) (DateFromTime t + k) = Day t + k.
Proof.
  pose proof (MonthFromTime_range t) as Hm.
  unfold MakeDay, DateFromTime, DayWithinYear, InLeapYear.
  rewrite (Z.div_small (MonthFromTime t) 12) by lia.
  rewrite (Z.mod_small (MonthFromTime t) 12) by lia.
  rewrite Z.add_0_r. lia.
Qed.

Lemma MakeDate_Day_TimeWithinDay t k :
  MakeDate (Day t + k) (TimeWithinDay t) = t + k * msPerDay.
Proof.
  unfold MakeDate, Day, TimeWithinDay.
  pose proof (Z.div_mod t msPerDay). unfold msPerDay in *. lia.
Qed.

Lemma Day_bounds x : Day x * msPerDay <= x < Day x * msPerDay + msPerDay.
Proof.
  unfold Day. pose proof (Z.div_mod x msPerDay).
  pose proof (Z.mod_pos_bound x msPerDay). unfold msPerDay in *. lia.
Qed.

(** [YearFromTime] is the year of the standard: the largest year that
    starts at or before the time. *)
Lemma YearFromTime_spec t :
  TimeFromYear (YearFromTime t) <= t < TimeFromYear (YearFromTime t + 1).
Proof.
  pose proof (Day_bounds t) as Hd.
  unfold TimeFromYear, YearFromTime.
  set (d := Day t) in *.
  set (y := 1970 + 400 * d / 146097).
  assert (Hy : 146097 * (y - 1970) <= 400 * d < 146097 * (y - 1970) + 146097).
  { unfold y. pose proof (Z.div_mod (400 * d) 146097).
    pose proof (Z.mod_pos_bound (400 * d) 146097). lia. }
  clearbody y d.
  assert (Hlo : DayFromYear (y - 1) <= d) by (unfold DayFromYear; Z.to_euclidean_division_equations; lia).
  assert (Hhi : d < DayFromYear (y + 2)) by (unfold DayFromYear; Z.to_euclidean_division_equations; lia).
  destruct (Z.ltb_spec d (DayFromYear y)).
  - unfold msPerDay in *. replace (y - 1 + 1) with y by lia. nia.
  - destruct (Z.leb_spec (DayFromYear (y + 1)) d).
    + unfold msPerDay in *. replace (y + 1 + 1) with (y + 2) by lia. nia.
    + unfold msPerDay in *. nia.
Qed.

(** A year ends [DaysInYear] days after it starts. *)
Lemma DayFromYear_succ y : DayFromYear (y + 1) = DayFromYear y + DaysInYear y.
Proof.
  unfold DayFromYear, DaysInYear.
  destruct (Z.eqb_spec (y mod 4) 0), (Z.eqb_spec (y mod 100) 0), (Z.eqb_spec (y mod 400) 0);
    cbn [negb]; Z.to_euclidean_division_equations; lia.
Qed.

Lemma DayWithinYear_range t : 0 <= DayWithinYear t < DaysInYear (YearFromTime t).
Proof.
  pose proof (YearFromTime_spec t) as Hy. pose proof (Day_bounds t) as Hd.
  unfold DayWithinYear, TimeFromYear in *. rewrite DayFromYear_succ in Hy.
  unfold msPerDay in *. nia.
Qed.

(** The day of the month is between 1 and 31. *)
Lemma DateFromTime_range t : 1 <= DateFromTime t <= 31.
Proof.
  pose proof (DayWithinYear_range t) as Hd.
  unfold DateFromTime, MonthFromTime, InLeapYear in *.
  assert (DaysInYear (YearFromTime t) = 365 \/ DaysInYear (YearFromTime t) = 366) as [E|E]
    by (unfold DaysInYear; repeat destruct (negb _); auto);
    rewrite E in *; cbn [Z.eqb Pos.eqb];
    repeat match goal with |- context [if ?a <? ?b then _ else _] =>
      destruct (Z.ltb_spec a b) end; cbn [daysBeforeMonth]; lia.
Qed.

Lemma WeekDay_cases x :
  WeekDay x = 0 \/ WeekDay x = 1 \/ WeekDay x = 2 \/ WeekDay x = 3 \/
  WeekDay x = 4 \/ WeekDay x = 5 \/ WeekDay x = 6.
Proof.
  assert (0 <= WeekDay x < 7) by (unfold WeekDay; apply Z.mod_pos_bound; lia). lia.
Qed.

Lemma TimeClip_Some x : Z.abs x <= maxTime -> TimeClip x = Some x.
Proof.
  intros H. unfold TimeClip. destruct (Z.leb_spec (Z.abs x) maxTime); [done | lia].
Qed.

(** [d.setDate(d.getDate() + k)] and [d.setDate(d.getDate() - k)] *)
Lemma setDate_getDate_add tz t k :
  setDate tz (Some t) (Number_add (getDate tz (Some t)) k) = TimeClip (t + k * msPerDay).
Proof.
  cbn. rewrite MakeDay_DateFromTime, MakeDate_Day_TimeWithinDay.
  unfold UTC, LocalTime. f_equal. lia.
Qed.

Lemma setDate_getDate_sub tz t k :
  setDate tz (Some t) (Number_sub (getDate tz (Some t)) k) = TimeClip (t - k * msPerDay).
Proof.
  cbn. replace (DateFromTime (LocalTime tz t) - k)
    with (DateFromTime (LocalTime tz t) + - k) by lia.
  rewrite MakeDay_DateFromTime, MakeDate_Day_TimeWithinDay.
  unfold UTC, LocalTime. f_equal. lia.
Qed.

(** [d.setHours(0, 0, 0, 0)] *)
Lemma setHours_midnight tz t :
  setHours tz (Some t) 0 0 0 0 = TimeClip (Day (LocalTime tz t) * msPerDay - tz).
Proof. cbn. unfold UTC, MakeDate, MakeTime. f_equal. lia. Qed.

(** ** The publication window *)

Ltac in_range := unfold LocalTime, maxTime, msPerDay in *; lia.

(** The normalised [latestPubDate] of a valid execution time: the time
    itself when its hours and minutes are zero, the next local midnight
    otherwise. *)
Lemma normalizeLatest_value tz t :
  Z.abs t <= maxTime - 4 * msPerDay ->
  normalizeLatest tz (Some t) =
    Some (if (HourFromTime (LocalTime tz t) =? 0) && (MinFromTime (LocalTime tz t) =? 0)
          then t
          else (Day (LocalTime tz t) + 1) * msPerDay - tz).
Proof.
  intros Ht. unfold normalizeLatest.
  cbn [getHours getMinutes fmap option_fmap option_map Number_neq].
  rewrite <- negb_andb.
  destruct (_ && _); cbn [negb]; [done|].
  pose proof (Day_bounds (LocalTime tz t)) as Hd.
  rewrite setHours_midnight.
  rewrite TimeClip_Some by in_range.
  rewrite setDate_getDate_add.
  rewrite TimeClip_Some by in_range.
  f_equal. lia.
Qed.

Lemma normalizeLatest_bounds tz t n :
  Z.abs t <= maxTime - 4 * msPerDay ->
  normalizeLatest tz (Some t) = Some n -> t <= n <= t + msPerDay.
Proof.
  intros Ht. rewrite normalizeLatest_value by done. intros [= <-].
  pose proof (Day_bounds (LocalTime tz t)) as Hd.
  destruct (_ && _); in_range.
Qed.

(** When the hours or the minutes are not zero, the normalised
    [latestPubDate] is the first local midnight after the execution
    time. *)
Lemma normalizeLatest_next_midnight tz t n :
  Z.abs t <= maxTime - 4 * msPerDay ->
  HourFromTime (LocalTime tz t) <> 0 \/ MinFromTime (LocalTime tz t) <> 0 ->
  normalizeLatest tz (Some t) = Some n ->
  TimeWithinDay (LocalTime tz n) = 0 /\ Day (LocalTime tz n) = Day (LocalTime tz t) + 1 /\ t < n.
Proof.
  intros Ht Hhm. rewrite normalizeLatest_value by done. intros [= <-].
  pose proof (Day_bounds (LocalTime tz t)) as Hd.
  assert ((HourFromTime (LocalTime tz t) =? 0) && (MinFromTime (LocalTime tz t) =? 0) = false)
    as -> by (apply andb_false_iff; rewrite !Z.eqb_neq; tauto).
  unfold TimeWithinDay, Day in *.
  replace (LocalTime tz ((LocalTime tz t / msPerDay + 1) * msPerDay - tz))
    with ((LocalTime tz t / msPerDay + 1) * msPerDay) by (unfold LocalTime; lia).
  rewrite Z.mod_mul, Z.div_mul by (unfold msPerDay; lia).
  repeat split; in_range.
Qed.

(** The weekday correction, in milliseconds. *)
Lemma adjustWeekday_value tz n :
  Z.abs n <= maxTime - 3 * msPerDay ->
  adjustWeekday tz (Some n) =
    let w := WeekDay (LocalTime tz n) in
    if w =? 6 then (Some (n - msPerDay), Some (n + 2 * msPerDay))
    else if w =? 0 then (Some (n - 2 * msPerDay), Some (n + msPerDay))
    else if w =? 1 then (Some (n - 3 * msPerDay), Some n)
    else (Some (n - msPerDay), Some n).
Proof.
  intros Hn. unfold adjustWeekday.
  rewrite !setDate_getDate_add, setDate_getDate_sub.
  rewrite (TimeClip_Some (n - 1 * msPerDay)) by in_range.
  rewrite !setDate_getDate_sub.
  rewrite !TimeClip_Some by in_range.
  cbn [getDay fmap option_fmap option_map].
  destruct (WeekDay_cases (LocalTime tz n)) as [H|[H|[H|[H|[H|[H|H]]]]]];
    rewrite H; cbn -[Z.mul Z.sub Z.add msPerDay];
    f_equal; (reflexivity || (f_equal; lia)).
Qed.

(** C3. The handler tests the hours and the minutes of the execution
    time only. An execution time in the first minute of a local day
    whose seconds or milliseconds are not zero is therefore left as it
    is: the normalised [latestPubDate] is the execution time itself,
    which is not a midnight, and not the start of the following day. *)
Theorem normalizeLatest_keeps_seconds tz t :
  HourFromTime (LocalTime tz t) = 0 ->
  MinFromTime (LocalTime tz t) = 0 ->
  TimeWithinDay (LocalTime tz t) <> 0 ->
  normalizeLatest tz (Some t) = Some t
  /\ normalizeLatest tz (Some t) <> Some (UTC tz ((Day (LocalTime tz t) + 1) * msPerDay))
  /\ (forall n, normalizeLatest tz (Some t) = Some n -> TimeWithinDay (LocalTime tz n) <> 0).
Proof.
  intros Hh Hm Hs.
  assert (Hn : normalizeLatest tz (Some t) = Some t).
  { unfold normalizeLatest.
    cbn [getHours getMinutes fmap option_fmap option_map Number_neq].
    by rewrite Hh, Hm. }
  rewrite Hn. split; [done|]. split.
  - intros [= He]. pose proof (Day_bounds (LocalTime tz t)) as Hd.
    unfold UTC, LocalTime, msPerDay in *. lia.
  - by intros n [= <-].
Qed.

(** The run of 2022-03-01T00:00:30.500Z in UTC: [latestPubDate] stays at
    thirty and a half seconds past midnight. *)
Lemma normalizeLatest_keeps_seconds_witness :
  normalizeLatest 0 (Some Sample.halfPastMidnight) = Some Sample.halfPastMidnight
  /\ TimeWithinDay (LocalTime 0 Sample.halfPastMidnight) = 30500.
Proof.
  split; [|reflexivity].
  apply (normalizeLatest_keeps_seconds 0 Sample.halfPastMidnight);
    [reflexivity | reflexivity | discriminate].
Defined.

(** C4. The weekday correction follows the weekday [w] of the normalised
    [latestPubDate] [n]: on Saturday [latestPubDate] moves two days on; on
    Sunday [latestPubDate] moves one day on and [oldestPubDate], one day
    before [n], one more day back; on Monday [oldestPubDate] moves two
    more days back; on the other days the window is the day before [n].
    When [w] is Saturday the window is exactly three days long. *)
Theorem weekday_correction tz t n :
  Z.abs t <= maxTime - 4 * msPerDay ->
  normalizeLatest tz (Some t) = Some n ->
  let w := WeekDay (LocalTime tz n) in
  pubDateWindow tz (Some t) =
    (if w =? 6 then (Some (n - msPerDay), Some (n + 2 * msPerDay))
     else if w =? 0 then (Some (n - 2 * msPerDay), Some (n + msPerDay))
     else if w =? 1 then (Some (n - 3 * msPerDay), Some n)
     else (Some (n - msPerDay), Some n))
  /\ (w = 6 -> exists o l,
        pubDateWindow tz (Some t) = (Some o, Some l) /\ l - o = 3 * msPerDay).
Proof.
  intros Ht Hn w.
  pose proof (normalizeLatest_bounds tz t n Ht Hn) as Hb.
  assert (Hw : pubDateWindow tz (Some t) = adjustWeekday tz (Some n))
    by (unfold pubDateWindow; by rewrite Hn).
  rewrite Hw, adjustWeekday_value by in_range.
  split; [done|].
  intros H6. cbn zeta. fold w. rewrite H6. cbn [Z.eqb Pos.eqb].
  eexists _, _. split; [done|]. lia.
Qed.

(** The run of Saturday 2022-03-05T00:00:00Z: the window is Friday
    00:00 to Monday 00:00. *)
Lemma weekday_correction_witness :
  WeekDay (LocalTime 0 Sample.saturday) = 6
  /\ pubDateWindow 0 (Some Sample.saturday)
     = (Some (Sample.saturday - msPerDay), Some (Sample.saturday + 2 * msPerDay)).
Proof.
  split; [reflexivity|].
  apply (weekday_correction 0 Sample.saturday Sample.saturday);
    [vm_compute; discriminate | reflexivity].
Defined.

(** After the correction the window of a valid execution time has two
    valid ends, one or three days apart. *)
Lemma pubDateWindow_ordered tz t :
  Z.abs t <= maxTime - 4 * msPerDay ->
  exists o l, pubDateWindow tz (Some t) = (Some o, Some l) /\ o < l.
Proof.
  intros Ht.
  destruct (normalizeLatest tz (Some t)) as [n|] eqn:Hn;
    [|by rewrite normalizeLatest_value in Hn].
  pose proof (normalizeLatest_bounds _ t n Ht Hn) as Hb.
  unfold pubDateWindow. rewrite Hn, adjustWeekday_value by in_range.
  cbn zeta.
  repeat match goal with |- context [if ?b then _ else _] => destruct b end;
    eexists _, _; (split; [reflexivity | unfold msPerDay; lia]).
Qed.

(** C5. For every request whose time is a date at least four days inside
    the range of time values, whatever its language, the window of the
    run has two valid ends and [oldestPubDate] is before
    [latestPubDate]. *)
Theorem window_oldest_before_latest (env : Env) (event : Event.t) t :
  new_Date env (Some (Event.time event)) = Some t ->
  Z.abs t <= maxTime - 4 * msPerDay ->
  exists o l, window env event = (Some o, Some l) /\ o < l.
Proof.
  intros Hd Ht. unfold window. rewrite Hd. by apply pubDateWindow_ordered.
Qed.

Lemma window_oldest_before_latest_witness :
  exists o l, window Sample.env (Sample.saturdayRun "ja") = (Some o, Some l) /\ o < l.
Proof.
  apply (window_oldest_before_latest Sample.env (Sample.saturdayRun "ja") Sample.saturday);
    [reflexivity | vm_compute; discriminate].
Defined.

(** ** Promises *)

Lemma bind_resolved {A B} (m : Async A) (f : A → Async B) (b : B) :
  settled (m ≫= f) = Resolved b ↔ ∃ a, settled m = Resolved a ∧ settled (f a) = Resolved b.
Proof.
  unfold mbind, Async_bind. destruct (settled m) as [a|e]; cbn.
  - split; [eauto|]. by intros (a' & [= <-] & H).
  - split; [done|]. by intros (a' & [=] & _).
Qed.

Lemma bind_of_resolved {A B} (m : Async A) (f : A → Async B) (a : A) :
  settled m = Resolved a →
  m ≫= f = mkAsync (settled (f a)) (console m ++ console (f a)).
Proof. intros H. unfold mbind, Async_bind. by rewrite H. Qed.

Lemma bind_of_rejected {A B} (m : Async A) (f : A → Async B) (e : Error) :
  settled m = Rejected e → m ≫= f = mkAsync (Rejected e) (console m).
Proof. intros H. unfold mbind, Async_bind. by rewrite H. Qed.

Lemma await_resolved {A} (s : Settled A) (a : A) :
  settled (await s) = Resolved a ↔ s = Resolved a.
Proof. done. Qed.

Lemma mret_resolved {A} (a b : A) :
  settled (mret a : Async A) = Resolved b ↔ a = b.
Proof. cbn. split; [by intros [=] | by intros ->]. Qed.

Lemma bind_total {A B} (m : Async A) (f : A → Async B) (a : A) :
  settled m = Resolved a →
  (∃ b, settled (f a) = Resolved b) →
  ∃ b, settled (m ≫= f) = Resolved b.
Proof. intros Hm [b Hb]. exists b. apply bind_resolved. eauto. Qed.

Lemma bind_total_of {A B} (m : Async A) (f : A → Async B) :
  (∃ a, settled m = Resolved a) →
  (∀ a, ∃ b, settled (f a) = Resolved b) →
  ∃ b, settled (m ≫= f) = Resolved b.
Proof. intros [a Hm] Hf. by apply (bind_total m f a). Qed.

(** ** The feed adapter *)

Lemma getFeed_resolved env feedUrl oldest latest feed :
  parseURL env feedUrl = Resolved feed →
  getFeed env feedUrl oldest latest =
    mkAsync (Resolved (Feed.mk (Feed.title feed)
               (List.filter
                  (λ item, Date_gt (new_Date env (Item.pubDate item)) oldest
                           && Date_le (new_Date env (Item.pubDate item)) latest)
                  (Feed.items feed)))) [].
Proof. intros H. unfold getFeed. by rewrite H. Qed.

Lemma getFeed_rejected env feedUrl oldest latest err :
  parseURL env feedUrl = Rejected err →
  getFeed env feedUrl oldest latest = mkAsync (Resolved (Feed.mk (Some "error") [])) [err].
Proof. intros H. unfold getFeed. by rewrite H. Qed.

Lemma getFeed_total env feedUrl oldest latest :
  ∃ feed, settled (getFeed env feedUrl oldest latest) = Resolved feed.
Proof.
  destruct (parseURL env feedUrl) as [feed|err] eqn:H.
  - rewrite (getFeed_resolved _ _ _ _ _ H). eauto.
  - rewrite (getFeed_rejected _ _ _ _ _ H). eauto.
Qed.

(** C2. When the feed is retrieved, [getFeed] resolves to the entries of
    the feed whose publication date [p] is a valid date with
    [o < p <= l], and to no other entry: an entry published exactly at
    [oldestPubDate] is left out, and an entry of the feed published
    exactly at [latestPubDate] is kept. *)
Theorem getFeed_keeps_window env feedUrl feed o l :
  parseURL env feedUrl = Resolved feed →
  ∃ kept,
    settled (getFeed env feedUrl (Some o) (Some l)) = Resolved kept
    ∧ (∀ item, item ∈ Feed.items kept ↔
         item ∈ Feed.items feed
         ∧ ∃ p, new_Date env (Item.pubDate item) = Some p ∧ o < p <= l)
    ∧ (∀ item, new_Date env (Item.pubDate item) = Some o → item ∉ Feed.items kept)
    ∧ (∀ item, item ∈ Feed.items feed → new_Date env (Item.pubDate item) = Some l →
         o < l → item ∈ Feed.items kept).
Proof.
  intros H. rewrite (getFeed_resolved _ _ _ _ _ H). eexists. split; [done|]. cbn.
  assert (Hin : ∀ item, item ∈ List.filter
                  (λ item, Date_gt (new_Date env (Item.pubDate item)) (Some o)
                           && Date_le (new_Date env (Item.pubDate item)) (Some l))
                  (Feed.items feed) ↔
         item ∈ Feed.items feed
         ∧ ∃ p, new_Date env (Item.pubDate item) = Some p ∧ o < p <= l).
  { intros item. rewrite !list_elem_of_In, filter_In, andb_true_iff.
    destruct (new_Date env (Item.pubDate item)) as [p|]; cbn.
    - rewrite Z.ltb_lt, Z.leb_le. split.
      + intros (? & ? & ?). eauto.
      + intros (? & q & [= <-] & ?). done.
    - split; [by intros (_ & [=] & _) | by intros (_ & q & [=] & _)]. }
  split; [exact Hin|]. split.
  - intros item Hp (_ & p & Hq & Hlt)%Hin. rewrite Hp in Hq. injection Hq as <-. lia.
  - intros item Hi Hp Hol. apply Hin. split; [done|]. exists l. split; [done|lia].
Qed.

(** The announcement feed of the sample deployment and the window of
    the Saturday run. *)
Lemma getFeed_keeps_window_witness :
  ∃ kept,
    settled (getFeed Sample.env announcementsFeedUrl
                     (Some (Sample.saturday - msPerDay))
                     (Some (Sample.saturday + 2 * msPerDay))) = Resolved kept
    ∧ (Sample.atOldest ∉ Feed.items kept)
    ∧ (Sample.atLatest ∈ Feed.items kept).
Proof.
  destruct (getFeed_keeps_window Sample.env announcementsFeedUrl Sample.announcementFeed
              (Sample.saturday - msPerDay) (Sample.saturday + 2 * msPerDay))
    as (kept & Hk & _ & Hout & Hin); [reflexivity|].
  exists kept. split; [exact Hk|]. split.
  - apply Hout. reflexivity.
  - apply Hin; [|reflexivity|reflexivity].
    apply list_elem_of_In. cbn. tauto.
Defined.

(** ** Unreachable sources *)

(** C6. When the feed cannot be retrieved or parsed, [getFeed] does not
    reject: it resolves to a feed with no item and writes the error to
    the console. Each of the five steps of the handler that read a feed
    then resolves without adding anything, whatever the language. *)
Theorem unreachable_feed_is_empty env feedUrl oldest latest err :
  parseURL env feedUrl = Rejected err →
  getFeed env feedUrl oldest latest = mkAsync (Resolved (Feed.mk (Some "error") [])) [err]
  ∧ (∀ lang, feedUrl = announcementsFeedUrl →
       fetchAnnouncements env lang oldest latest = mkAsync (Resolved ([], [])) [err])
  ∧ (∀ lang youtube playlist, feedUrl = playlistFeedUrl playlist →
       playlistBody env lang oldest latest youtube playlist = mkAsync (Resolved youtube) [err])
  ∧ (∀ lang blogs blog, feedUrl = japanBlogFeedUrl blog →
       japanBlogBody env lang oldest latest blogs blog = mkAsync (Resolved blogs) [err])
  ∧ (∀ lang blogs blog, feedUrl = blogFeedUrl blog →
       blogBody env lang oldest latest blogs blog = mkAsync (Resolved blogs) [err])
  ∧ (∀ oss repo, feedUrl = repoFeedUrl repo →
       repoBody env oldest latest oss repo = mkAsync (Resolved oss) [err]).
Proof.
  intros H. pose proof (getFeed_rejected env feedUrl oldest latest err H) as Hg.
  split; [done|]. split; [|split; [|split; [|split]]].
  - intros lang ->. unfold fetchAnnouncements. cbn zeta. rewrite Hg.
    by destruct (negb _).
  - intros lang youtube playlist ->. unfold playlistBody. cbn zeta. by rewrite Hg.
  - intros lang blogs blog ->. unfold japanBlogBody. cbn zeta. by rewrite Hg.
  - intros lang blogs blog ->. unfold blogBody. cbn zeta. by rewrite Hg.
  - intros oss repo ->. unfold repoBody. cbn zeta. by rewrite Hg.
Qed.

(** The release feed of the sample deployment is unreachable. *)
Lemma unreachable_feed_is_empty_witness :
  getFeed Sample.env "https://github.com/aws/aws-cdk/releases.atom" None None
  = mkAsync (Resolved (Feed.mk (Some "error") []))
            ["Status code 503: https://github.com/aws/aws-cdk/releases.atom"].
Proof.
  apply (unreachable_feed_is_empty Sample.env
           "https://github.com/aws/aws-cdk/releases.atom" None None).
  reflexivity.
Defined.


(** ** The translator *)

Lemma translate_resolved env text src tgt out :
  TranslateClient_send env (mkTranslateText text src tgt) = Resolved out →
  translate env text src tgt = mkAsync (Resolved (or_else (TranslatedText out) text)) [].
Proof. intros H. unfold translate. cbn zeta. by rewrite (bind_of_resolved _ _ out). Qed.

Lemma translate_rejected env text src tgt e :
  TranslateClient_send env (mkTranslateText text src tgt) = Rejected e →
  translate env text src tgt = mkAsync (Rejected e) [].
Proof. intros H. unfold translate. cbn zeta. by rewrite (bind_of_rejected _ _ e). Qed.

Section Batch.

Variable env : Env.
Variable get : Item.t → MaybeString.
Variable set : MaybeString → Item.t → Item.t.
Variables src tgt : string.

Let send (item : Item.t) : Settled TranslateTextOutput :=
  TranslateClient_send env (mkTranslateText (get item) src tgt).

Let batch (items : list Item.t) : Async (list Item.t) :=
  Promise.map (λ item, t ← translate env (get item) src tgt; mret (set t item)) items.

Lemma batch_cons_resolved item items out :
  send item = Resolved out →
  batch (item :: items) =
    mkAsync (match settled (batch items) with
             | Resolved outs => Resolved (set (or_else (TranslatedText out) (get item)) item :: outs)
             | Rejected e => Rejected e
             end) (console (batch items)).
Proof.
  intros H. unfold batch. cbn [Promise.map].
  rewrite (translate_resolved _ _ _ _ _ H).
  unfold mbind, mret, Async_bind, Async_ret. cbn.
  destruct (settled (Promise.map _ items)); cbn; by rewrite ?app_nil_r.
Qed.

Lemma batch_cons_rejected item items e :
  send item = Rejected e → batch (item :: items) = mkAsync (Rejected e) [].
Proof.
  intros H. unfold batch. cbn [Promise.map].
  by rewrite (translate_rejected _ _ _ _ _ H).
Qed.

Lemma batch_all_resolved items :
  (∀ item, item ∈ items → ∃ out, send item = Resolved out) →
  ∃ outs,
    batch items = mkAsync (Resolved outs) []
    ∧ length outs = length items
    ∧ ∀ (i : nat) item, items !! i = Some item →
        ∃ t, outs !! i = Some (set t item)
             ∧ (t = get item ∨ send item = Resolved (mkTranslated t)).
Proof.
  induction items as [|x items IH]; intros Hall.
  - exists []. split; [done|]. split; [done|]. by intros i item [=].
  - destruct (Hall x) as [out Hx]; [by left|].
    destruct IH as (outs & Hb & Hlen & Hpos).
    { intros item Hi. apply Hall. by right. }
    exists (set (or_else (TranslatedText out) (get x)) x :: outs).
    rewrite (batch_cons_resolved _ _ _ Hx), Hb. cbn.
    split; [done|]. split; [by rewrite Hlen|].
    intros [|i] item; cbn.
    + intros [= <-]. eexists. split; [done|].
      unfold or_else. destruct (truthy _); [right|by left].
      rewrite Hx. by destruct out.
    + apply Hpos.
Qed.

Lemma batch_one_rejected items item e :
  item ∈ items → send item = Rejected e → ∃ e', settled (batch items) = Rejected e'.
Proof.
  induction items as [|x items IH]; intros Hi He; [by apply elem_of_nil in Hi|].
  destruct (send x) as [out|e0] eqn:Hx.
  - rewrite (batch_cons_resolved _ _ _ Hx). cbn.
    apply elem_of_cons in Hi as [->|Hi]; [congruence|].
    destruct (IH Hi He) as [e' ->]. eauto.
  - rewrite (batch_cons_rejected _ _ _ Hx). eauto.
Qed.

End Batch.


(** The batches that translate titles behave in the same way. *)
Lemma translateTitles_batch env sourceLang lang items :
  ((∀ item, item ∈ items → ∃ out,
      TranslateClient_send env (mkTranslateText (Item.title item) sourceLang lang)
      = Resolved out) →
   ∃ outs,
     translateTitles env sourceLang lang items = mkAsync (Resolved outs) []
     ∧ length outs = length items
     ∧ ∀ (i : nat) item, items !! i = Some item →
         ∃ t, outs !! i = Some (Item.set_title t item)
              ∧ (t = Item.title item
                 ∨ TranslateClient_send env (mkTranslateText (Item.title item) sourceLang lang)
                   = Resolved (mkTranslated t)))
  ∧ (∀ item e, item ∈ items →
       TranslateClient_send env (mkTranslateText (Item.title item) sourceLang lang)
       = Rejected e →
       ∃ e', settled (translateTitles env sourceLang lang items) = Rejected e').
Proof.
  split.
  - apply (batch_all_resolved env Item.title Item.set_title).
  - apply (batch_one_rejected env Item.title Item.set_title).
Qed.



(** ** Strings and sets *)

Lemma append_nil_l t : "" +:+ t = t.
Proof. reflexivity. Qed.

Lemma append_cons c p t : String c p +:+ t = String c (p +:+ t).
Proof. reflexivity. Qed.














(** ** Tags *)



(** ** The assembled document *)

Ltac inv_bind H :=
  let a := fresh "a" in
  let Ha := fresh "H" a in
  apply bind_resolved in H as (a & Ha & H).

(** What a run that builds its document has computed. *)
Lemma buildDocument_resolved env event l :
  settled (buildDocument env event) = Resolved l →
  let lang := Event.lang event in
  let executedDate := new_Date env (Some (Event.time event)) in
  let o := oldestPubDate l in
  let la := latestPubDate l in
  window env event = (o, la)
  ∧ settled (frontMatterDate env (objectKey l) executedDate)
    = Resolved (FrontMatter.date (frontMatter l))
  ∧ (∃ tags,
       settled (fetchAnnouncements env lang o la) = Resolved (tags, announcements (data l))
       ∧ FrontMatter.tags (frontMatter l) = Array_from_Set tags)
  ∧ settled (forOf (playlistBody env lang o la) (Config.youtube_playlists (source env)) [])
    = Resolved (youtube (data l))
  ∧ (∃ japan,
       settled (forOf (japanBlogBody env lang o la) (Config.awsJapanBlogs (source env)) [])
       = Resolved japan
       ∧ settled (forOf (blogBody env lang o la) (Config.awsBlogs (source env)) japan)
         = Resolved (blogs (data l)))
  ∧ settled (forOf (repoBody env o la) (Config.githubRepos (source env)) [])
    = Resolved (oss (data l))
  ∧ mdBody l = render env lang (frontMatter l) (pubDateRange l) (data l).
Proof.
  unfold buildDocument. destruct (window env event) as [o la] eqn:Hw.
  intros H. cbn zeta in H.
  inv_bind H. inv_bind H. inv_bind H. inv_bind H.
  destruct a2 as [tags anns].
  inv_bind H. inv_bind H. inv_bind H. inv_bind H.
  cbv [mret Async_ret settled] in H. injection H as <-. cbn.
  repeat split; eauto.
Qed.

(** Runs a sample request and takes the document it builds. *)
Ltac run_document env ev :=
  let v := eval vm_compute in (settled (buildDocument env ev)) in
  match v with Resolved ?l => exists l end.

(** ** The date of the front matter *)

Lemma getMetadata_value env bucket key metadataKey :
  getMetadata env bucket key metadataKey =
    mkAsync (Resolved
               match S3Client_head env (mkHead bucket key) with
               | Resolved out =>
                   match head_Metadata out with
                   | Some m => m !! metadataKey
                   | None => None
                   end
               | Rejected _ => None
               end) [].
Proof. unfold getMetadata. cbn zeta. by destruct (S3Client_head env _). Qed.

Lemma frontMatterDate_stored env objectKey executedDate out m d :
  S3Client_head env (mkHead (bucketName env) objectKey) = Resolved out →
  head_Metadata out = Some m →
  m !! "date" = Some d →
  d ≠ "" →
  frontMatterDate env objectKey executedDate = mkAsync (Resolved d) [].
Proof.
  intros Hs Hm Hd Hne. unfold frontMatterDate.
  rewrite getMetadata_value, Hs, Hm, Hd.
  rewrite (bind_of_resolved _ _ (Some d)) by done. cbn.
  by apply String.eqb_neq in Hne as ->.
Qed.

Lemma frontMatterDate_fallback env objectKey executedDate :
  (∃ e, S3Client_head env (mkHead (bucketName env) objectKey) = Rejected e)
  ∨ (∃ out, S3Client_head env (mkHead (bucketName env) objectKey) = Resolved out
            ∧ (head_Metadata out = None
               ∨ ∃ m, head_Metadata out = Some m
                      ∧ (m !! "date" = None ∨ m !! "date" = Some ""))) →
  frontMatterDate env objectKey executedDate = await (toISOString env executedDate).
Proof.
  intros H. unfold frontMatterDate. rewrite getMetadata_value.
  destruct H as [[e ->]|(out & -> & [->|(m & -> & [->| ->])])];
    (erewrite bind_of_resolved by done); cbn; by destruct (toISOString _ _).
Qed.

(** The metadata written with the document carry its date. *)
Lemma putObjectCommand_date env l :
  put_Metadata (putObjectCommand env l) !! "date" = Some (FrontMatter.date (frontMatter l)).
Proof.
  unfold putObjectCommand. cbn.
  rewrite lookup_insert_ne by done. apply lookup_insert_eq.
Qed.

(** C7. In a run that builds its document, when the lookup of the
    metadata of the object at the document's key returns a date that is
    not empty, that date is the date of the front matter; when the lookup
    fails, or the object has no metadata, no date or an empty one, the
    date of the front matter is the execution time in ISO format. So a
    run that finds at its key the object an earlier run wrote keeps the
    date of that run. *)
Theorem frontMatter_date_is_preserved env event l :
  settled (buildDocument env event) = Resolved l →
  let lookup := S3Client_head env (mkHead (bucketName env) (objectKey l)) in
  (∀ out m d,
     lookup = Resolved out → head_Metadata out = Some m → m !! "date" = Some d → d ≠ "" →
     FrontMatter.date (frontMatter l) = d)
  ∧ ((∃ e, lookup = Rejected e)
     ∨ (∃ out, lookup = Resolved out
               ∧ (head_Metadata out = None
                  ∨ ∃ m, head_Metadata out = Some m
                         ∧ (m !! "date" = None ∨ m !! "date" = Some ""))) →
     ∃ t, new_Date env (Some (Event.time event)) = Some t
          ∧ FrontMatter.date (frontMatter l) = Date_toISOString env t)
  ∧ (∀ env0 l0,
       lookup = Resolved (mkHeadOutput (Some (put_Metadata (putObjectCommand env0 l0)))) →
       FrontMatter.date (frontMatter l0) ≠ "" →
       FrontMatter.date (frontMatter l) = FrontMatter.date (frontMatter l0)).
Proof.
  intros (_ & Hdate & _)%buildDocument_resolved lookup.
  assert (Hstored : ∀ out m d,
     lookup = Resolved out → head_Metadata out = Some m → m !! "date" = Some d → d ≠ "" →
     FrontMatter.date (frontMatter l) = d).
  { intros out m d Hs Hm Hd Hne.
    rewrite (frontMatterDate_stored _ _ _ _ _ _ Hs Hm Hd Hne) in Hdate.
    by injection Hdate. }
  split; [exact Hstored|]. split.
  - intros Hfail. rewrite (frontMatterDate_fallback _ _ _ Hfail) in Hdate.
    destruct (new_Date env (Some (Event.time event))) as [t|]; [|done].
    exists t. split; [done|]. by injection Hdate.
  - intros env0 l0 Hs Hne.
    apply (Hstored _ _ _ Hs eq_refl (putObjectCommand_date env0 l0) Hne).
Qed.

(** A run of the sample deployment over an earlier object. *)
Lemma frontMatter_date_is_preserved_witness :
  ∃ l, settled (buildDocument (Sample.envStored "2022-03-04T22:00:05.123Z")
                              (Sample.saturdayRun "en")) = Resolved l
       ∧ FrontMatter.date (frontMatter l) = "2022-03-04T22:00:05.123Z".
Proof.
  run_document (Sample.envStored "2022-03-04T22:00:05.123Z") (Sample.saturdayRun "en").
  assert (H : settled (buildDocument (Sample.envStored "2022-03-04T22:00:05.123Z")
                            (Sample.saturdayRun "en")) = Resolved _)
    by (vm_compute; reflexivity).
  split; [exact H|].
  eapply (proj1 (frontMatter_date_is_preserved _ _ _ H)); [reflexivity|reflexivity|..].
  - apply lookup_singleton_eq.
  - discriminate.
Defined.

(** ** The loops over the configured sources *)

Lemma Promise_map_length {A B} (mapper : A → Async B) (l : list A) (outs : list B) :
  settled (Promise.map mapper l) = Resolved outs → length outs = length l.
Proof.
  revert outs. induction l as [|x l IH]; intros outs; cbn [Promise.map].
  - by intros [= <-].
  - intros H. inv_bind H. inv_bind H. injection H as <-. cbn. f_equal. by apply IH.
Qed.

Lemma translateTitles_length env sourceLang lang items outs :
  settled (translateTitles env sourceLang lang items) = Resolved outs →
  length outs = length items.
Proof. apply Promise_map_length. Qed.

Lemma itemsInRange_getFeed env feedUrl o la feed :
  settled (getFeed env feedUrl o la) = Resolved feed →
  Feed.items feed = itemsInRange env feedUrl o la.
Proof. intros H. unfold itemsInRange. by rewrite H. Qed.

(** A loop whose body pushes one group for the sources it keeps and
    nothing for the others adds one group per kept source, in order. *)
Lemma forOf_pushes {A G} (body : list G → A → Async (list G))
    (keep : A → bool) (P : A → G → Prop) :
  (∀ acc x acc', settled (body acc x) = Resolved acc' →
     if keep x then ∃ g, P x g ∧ acc' = acc ++ [g] else acc' = acc) →
  ∀ l acc acc', settled (forOf body l acc) = Resolved acc' →
    ∃ gs, acc' = acc ++ gs ∧ Forall2 P (List.filter keep l) gs.
Proof.
  intros Hbody. induction l as [|x l IH]; intros acc acc'; cbn [forOf List.filter].
  - intros [= <-]. exists []. by rewrite app_nil_r.
  - intros H. inv_bind H. apply Hbody in Ha. apply IH in H as (gs & -> & Hgs).
    destruct (keep x).
    + destruct Ha as (g & Hg & ->). exists (g :: gs).
      rewrite <- app_assoc. split; [done|]. by constructor.
    + subst a. by exists gs.
Qed.

Lemma Forall2_filter_kept {A G} (keep : A → bool) (P : A → G → Prop) (l : list A) gs :
  Forall2 P (List.filter keep l) gs →
  Forall (λ g, ∃ x, x ∈ l ∧ keep x = true ∧ P x g) gs.
Proof.
  intros H. apply Forall_forall. intros g Hg.
  apply list_elem_of_lookup in Hg as [i Hi].
  destruct (Forall2_lookup_r _ _ _ _ _ H Hi) as (x & Hx & HP).
  apply list_elem_of_lookup_2, list_elem_of_In, filter_In in Hx as [Hx Hk].
  exists x. by rewrite list_elem_of_In.
Qed.

Section Bodies.

Variable env : Env.
Variable lang : string.
Variables o la : Date.

Let inRange (feedUrl : string) : list Item.t := itemsInRange env feedUrl o la.
Let nonempty (feedUrl : string) : bool := (0 <? length (inRange feedUrl))%nat.

Lemma pushed_items (sourceLang : string) (translated : bool) items (r : list Item.t) :
  settled (if translated then translateTitles env sourceLang lang items else mret items)
  = Resolved r →
  length r = length items.
Proof.
  destruct translated; [apply translateTitles_length|]. by intros [= <-].
Qed.

Lemma playlistBody_resolved youtube playlist youtube' :
  settled (playlistBody env lang o la youtube playlist) = Resolved youtube' →
  if nonempty (playlistFeedUrl playlist)
  then ∃ g, (Channel.title g = localized lang (Config.playlist_title playlist)
             ∧ length (Channel.items g) = length (inRange (playlistFeedUrl playlist)))
            ∧ youtube' = youtube ++ [g]
  else youtube' = youtube.
Proof.
  unfold playlistBody, nonempty, inRange. cbn zeta. intros H. inv_bind H.
  rewrite <- (itemsInRange_getFeed _ _ _ _ _ Ha).
  destruct (0 <? length (Feed.items a))%nat.
  - inv_bind H. injection H as <-. apply pushed_items in Ha0.
    eexists. split; [|reflexivity]. by cbn.
  - by injection H.
Qed.

Lemma japanBlogBody_resolved blogs blog blogs' :
  settled (japanBlogBody env lang o la blogs blog) = Resolved blogs' →
  if nonempty (japanBlogFeedUrl blog)
  then ∃ g, (Channel.title g = localized lang (Config.japanBlog_title blog)
             ∧ length (Channel.items g) = length (inRange (japanBlogFeedUrl blog)))
            ∧ blogs' = blogs ++ [g]
  else blogs' = blogs.
Proof.
  unfold japanBlogBody, nonempty, inRange. cbn zeta. intros H. inv_bind H.
  rewrite <- (itemsInRange_getFeed _ _ _ _ _ Ha).
  destruct (0 <? length (Feed.items a))%nat.
  - inv_bind H. injection H as <-. apply pushed_items in Ha0.
    eexists. split; [|reflexivity]. by cbn.
  - by injection H.
Qed.

Lemma blogBody_resolved blogs blog blogs' :
  settled (blogBody env lang o la blogs blog) = Resolved blogs' →
  if nonempty (blogFeedUrl blog)
  then ∃ g, length (Channel.items g) = length (inRange (blogFeedUrl blog))
            ∧ blogs' = blogs ++ [g]
  else blogs' = blogs.
Proof.
  unfold blogBody, nonempty, inRange. cbn zeta. intros H. inv_bind H.
  rewrite <- (itemsInRange_getFeed _ _ _ _ _ Ha).
  destruct (0 <? length (Feed.items a))%nat.
  - inv_bind H. injection H as <-. apply pushed_items in Ha0.
    eexists. split; [|reflexivity]. by cbn.
  - by injection H.
Qed.

Lemma repoBody_resolved oss repo oss' :
  settled (repoBody env o la oss repo) = Resolved oss' →
  if nonempty (repoFeedUrl repo)
  then ∃ g, (Project.title g = Config.repo_title repo
             ∧ Project.link g = repoUrl repo
             ∧ Project.items g = inRange (repoFeedUrl repo))
            ∧ oss' = oss ++ [g]
  else oss' = oss.
Proof.
  unfold repoBody, nonempty, inRange. cbn zeta. intros H. inv_bind H.
  rewrite <- (itemsInRange_getFeed _ _ _ _ _ Ha).
  destruct (0 <? length (Feed.items a))%nat.
  - injection H as <-. eexists. split; [|reflexivity]. by cbn.
  - by injection H.
Qed.

End Bodies.

(** ** Headings of the rendered body *)

Lemma h3_not_in_entries s items : h3 s ∉ flat_map renderEntry items.
Proof.
  rewrite list_elem_of_In, in_flat_map. intros (item & _ & [H|[H|[]]]); discriminate.
Qed.

Lemma h3_in_renderYoutube s youtube :
  h3 s ∈ renderYoutube youtube ↔ s = "YouTube" ∧ youtube ≠ [].
Proof.
  unfold renderYoutube. destruct youtube as [|g gs]; cbn [length Nat.ltb Nat.leb].
  - rewrite elem_of_nil. by intros; split; [|intros []].
  - rewrite elem_of_cons. split; [|intros [-> _]; by left].
    intros [[= ->]|H]; [done|]. exfalso.
    apply list_elem_of_In, in_flat_map in H as (c & _ & [H|H]); [discriminate|].
    by apply list_elem_of_In, h3_not_in_entries in H.
Qed.

Lemma h3_in_renderBlogs s blogs :
  h3 s ∈ renderBlogs blogs ↔ s = "AWS Blogs" ∧ blogs ≠ [].
Proof.
  unfold renderBlogs. destruct blogs as [|g gs]; cbn [length Nat.ltb Nat.leb].
  - rewrite elem_of_nil. by intros; split; [|intros []].
  - rewrite elem_of_cons. split; [|intros [-> _]; by left].
    intros [[= ->]|H]; [done|]. exfalso.
    apply list_elem_of_In, in_flat_map in H as (c & _ & [H|[H|H]]); [discriminate..|].
    by apply list_elem_of_In, h3_not_in_entries in H.
Qed.

Lemma h3_in_renderOss s oss :
  h3 s ∈ renderOss oss ↔ s = "Open Source Project" ∧ oss ≠ [].
Proof.
  unfold renderOss. destruct oss as [|g gs]; cbn [length Nat.ltb Nat.leb].
  - rewrite elem_of_nil. by intros; split; [|intros []].
  - rewrite elem_of_cons. split; [|intros [-> _]; by left].
    intros [[= ->]|H]; [done|]. exfalso.
    apply list_elem_of_In, in_flat_map in H as (c & _ & [H|H]); [discriminate|].
    by apply list_elem_of_In, h3_not_in_entries in H.
Qed.

Lemma h3_in_renderAnnouncements s lang announcements :
  h3 s ∈ renderAnnouncements lang announcements ↔ s = announcementsHeader lang.
Proof.
  unfold renderAnnouncements. rewrite elem_of_cons. split; [|intros ->; by left].
  intros [[= ->]|H]; [done|]. exfalso.
  destruct (0 <? length announcements)%nat.
  - apply list_elem_of_In, in_flat_map in H as (c & _ & [H|[H|[H|[]]]]); discriminate.
  - apply list_elem_of_In in H as [H|[H|[]]]; discriminate.
Qed.

Lemma announcementsHeader_other lang :
  announcementsHeader lang ≠ "YouTube"
  ∧ announcementsHeader lang ≠ "AWS Blogs"
  ∧ announcementsHeader lang ≠ "Open Source Project".
Proof. unfold announcementsHeader. by destruct (String.eqb lang "ja"). Qed.

(** Where a section heading can stand in the body. *)
Lemma h3_in_render env lang fm range d s :
  h3 s ∈ render env lang fm range d ↔
  s = announcementsHeader lang
  ∨ (s = "YouTube" ∧ youtube d ≠ [])
  ∨ (s = "AWS Blogs" ∧ blogs d ≠ [])
  ∨ (s = "Open Source Project" ∧ oss d ≠ []).
Proof.
  unfold render. rewrite !elem_of_app, h3_in_renderAnnouncements, h3_in_renderYoutube,
    h3_in_renderBlogs, h3_in_renderOss.
  split; [|tauto].
  intros [H|[H|H]]; [|apply list_elem_of_In in H as [H|[H|[]]]; discriminate|tauto].
  apply list_elem_of_In in H as [H|[H|[H|[]]]]; discriminate.
Qed.

Lemma nonempty_length {A} (l k : list A) :
  length l = length k → (0 <? length k)%nat = true → l ≠ [].
Proof. intros Hl Hk ->. cbn in Hl. by rewrite <- Hl in Hk. Qed.

(** The groups of a built document: one for every configured source
    whose feed has items in the range, in the order of the configuration,
    the Japanese blogs before the others. *)
Lemma buildDocument_groups env event l :
  settled (buildDocument env event) = Resolved l →
  let lang := Event.lang event in
  let inRange feedUrl := itemsInRange env feedUrl (oldestPubDate l) (latestPubDate l) in
  let has_items feedUrl := (0 <? length (inRange feedUrl))%nat in
  Forall2 (λ p g, Channel.title g = localized lang (Config.playlist_title p)
                  ∧ length (Channel.items g) = length (inRange (playlistFeedUrl p)))
          (List.filter (λ p, has_items (playlistFeedUrl p))
                       (Config.youtube_playlists (source env)))
          (youtube (data l))
  ∧ (∃ japan aws,
       blogs (data l) = japan ++ aws
       ∧ Forall2 (λ b g, Channel.title g = localized lang (Config.japanBlog_title b)
                         ∧ length (Channel.items g) = length (inRange (japanBlogFeedUrl b)))
                 (List.filter (λ b, has_items (japanBlogFeedUrl b))
                              (Config.awsJapanBlogs (source env)))
                 japan
       ∧ Forall2 (λ b g, length (Channel.items g) = length (inRange (blogFeedUrl b)))
                 (List.filter (λ b, has_items (blogFeedUrl b))
                              (Config.awsBlogs (source env)))
                 aws)
  ∧ Forall2 (λ r g, Project.title g = Config.repo_title r
                    ∧ Project.link g = repoUrl r
                    ∧ Project.items g = inRange (repoFeedUrl r))
            (List.filter (λ r, has_items (repoFeedUrl r))
                         (Config.githubRepos (source env)))
            (oss (data l)).
Proof.
  intros (_ & _ & _ & Hy & (japan & Hj & Hb) & Ho & _)%buildDocument_resolved.
  cbn zeta. split; [|split].
  - eapply forOf_pushes in Hy as (gs & -> & Hgs);
      [exact Hgs | apply playlistBody_resolved].
  - eapply forOf_pushes in Hj as (gj & -> & Hgj); [|apply japanBlogBody_resolved].
    eapply forOf_pushes in Hb as (gb & -> & Hgb); [|apply blogBody_resolved].
    by exists gj, gb.
  - eapply forOf_pushes in Ho as (gs & -> & Hgs);
      [exact Hgs | apply repoBody_resolved].
Qed.

(** C9. In a run that builds its document, each section holds one group
    for every configured source whose feed has items in the range and
    none for the others, and no group is empty. The body is the
    preamble, the announcements, and the video, blog and project
    sections in that order; the heading of a section is in the body
    exactly when one of its sources has items in the range; when none
    has, the body ends with the announcements. *)
Theorem empty_groups_are_omitted env event l :
  settled (buildDocument env event) = Resolved l →
  let lang := Event.lang event in
  let has_items feedUrl :=
    (0 <? length (itemsInRange env feedUrl (oldestPubDate l) (latestPubDate l)))%nat in
  let playlists :=
    List.filter (λ p, has_items (playlistFeedUrl p)) (Config.youtube_playlists (source env)) in
  let japanBlogs :=
    List.filter (λ b, has_items (japanBlogFeedUrl b)) (Config.awsJapanBlogs (source env)) in
  let awsBlogs :=
    List.filter (λ b, has_items (blogFeedUrl b)) (Config.awsBlogs (source env)) in
  let repos :=
    List.filter (λ r, has_items (repoFeedUrl r)) (Config.githubRepos (source env)) in
  let preamble :=
    [headerOrdered false; text (JSON_stringify env (frontMatter l)); newline;
     text (pubDateRange l); newline] in
  (length (youtube (data l)) = length playlists
   ∧ Forall (λ g, Channel.items g ≠ []) (youtube (data l)))
  ∧ (length (blogs (data l)) = (length japanBlogs + length awsBlogs)%nat
     ∧ Forall (λ g, Channel.items g ≠ []) (blogs (data l)))
  ∧ (length (oss (data l)) = length repos
     ∧ Forall (λ g, Project.items g ≠ []) (oss (data l)))
  ∧ mdBody l = preamble
               ++ renderAnnouncements lang (announcements (data l))
               ++ renderYoutube (youtube (data l))
               ++ renderBlogs (blogs (data l))
               ++ renderOss (oss (data l))
  ∧ (h3 "YouTube" ∈ mdBody l ↔ playlists ≠ [])
  ∧ (h3 "AWS Blogs" ∈ mdBody l ↔ japanBlogs ≠ [] ∨ awsBlogs ≠ [])
  ∧ (h3 "Open Source Project" ∈ mdBody l ↔ repos ≠ [])
  ∧ (playlists = [] → japanBlogs = [] → awsBlogs = [] → repos = [] →
     mdBody l = preamble ++ renderAnnouncements lang (announcements (data l))).
Proof.
  intros H. pose proof (buildDocument_groups _ _ _ H) as (Hy & (japan & aws & Hb & Hj & Ha) & Ho).
  apply buildDocument_resolved in H as (_ & _ & _ & _ & _ & _ & Hbody).
  cbn zeta in *.
  pose proof (Forall2_length _ _ _ Hy) as Ly.
  pose proof (Forall2_length _ _ _ Hj) as Lj.
  pose proof (Forall2_length _ _ _ Ha) as La.
  pose proof (Forall2_length _ _ _ Ho) as Lo.
  pose proof (announcementsHeader_other (Event.lang event)) as (N1 & N2 & N3).
  assert (Ey : ∀ A B (a : list A) (b : list B), length a = length b → (b ≠ [] ↔ a ≠ [])).
  { intros A B [|] [|]; cbn; intros; split; congruence. }
  split; [|split; [|split; [|split; [|split; [|split; [|split]]]]]].
  - split; [done|].
    eapply Forall_impl; [exact (Forall2_filter_kept _ _ _ _ Hy)|].
    intros g (p & _ & Hk & _ & Hl). cbn in Hk. by eapply nonempty_length.
  - rewrite Hb, length_app, <- Lj, <- La. split; [done|].
    apply Forall_app. split.
    + eapply Forall_impl; [exact (Forall2_filter_kept _ _ _ _ Hj)|].
      intros g (p & _ & Hk & _ & Hl). cbn in Hk. by eapply nonempty_length.
    + eapply Forall_impl; [exact (Forall2_filter_kept _ _ _ _ Ha)|].
      intros g (p & _ & Hk & Hl). cbn in Hk. by eapply nonempty_length.
  - split; [done|].
    eapply Forall_impl; [exact (Forall2_filter_kept _ _ _ _ Ho)|].
    intros g (p & _ & Hk & _ & _ & ->). cbn in Hk.
    intros E. by rewrite E in Hk.
  - by rewrite Hbody.
  - rewrite Hbody, h3_in_render, <- (Ey _ _ _ _ Ly). split; [|tauto].
    intros [?|[?|[[? _]|[? _]]]]; (done || tauto).
  - rewrite Hbody, h3_in_render, Hb, <- (Ey _ _ _ _ Lj), <- (Ey _ _ _ _ La).
    assert (japan ++ aws ≠ [] ↔ japan ≠ [] ∨ aws ≠ []) as ->
      by (destruct japan, aws; cbn; split; (tauto || (intros; (by left) || (by right)) || done)).
    split; [|tauto].
    intros [?|[[? _]|[?|[? _]]]]; (done || tauto).
  - rewrite Hbody, h3_in_render, <- (Ey _ _ _ _ Lo). split; [|tauto].
    intros [?|[[? _]|[[? _]|?]]]; (done || tauto).
  - intros E1 E2 E3 E4. rewrite E1 in Ly. rewrite E2 in Lj. rewrite E3 in La. rewrite E4 in Lo.
    rewrite Hbody. unfold render. rewrite Hb.
    destruct (youtube (data l)); [|done]. destruct (oss (data l)); [|done].
    destruct japan; [|done]. destruct aws; [|done].
    cbn. by rewrite !app_nil_r.
Qed.

(** The Tuesday run of the sample deployment: no source has an item in
    the window. *)
Lemma empty_groups_are_omitted_witness :
  ∃ l, settled (buildDocument Sample.env (Sample.tuesdayRun "en")) = Resolved l
       ∧ mdBody l =
           [headerOrdered false; text (JSON_stringify Sample.env (frontMatter l)); newline;
            text (pubDateRange l); newline]
           ++ renderAnnouncements "en" (announcements (data l)).
Proof.
  run_document Sample.env (Sample.tuesdayRun "en").
  assert (H : settled (buildDocument Sample.env (Sample.tuesdayRun "en")) = Resolved _)
    by (vm_compute; reflexivity).
  split; [exact H|].
  apply (empty_groups_are_omitted _ _ _ H); reflexivity.
Defined.


Lemma fetchAnnouncements_resolved env lang o la tags anns :
  settled (fetchAnnouncements env lang o la) = Resolved (tags, anns) →
  tags = flat_map products anns
  ∧ length anns = length (itemsInRange env announcementsFeedUrl o la).
Proof.
  unfold fetchAnnouncements. cbn zeta. intros H. inv_bind H. inv_bind H.
  injection H as <- <-. split; [done|].
  rewrite <- (itemsInRange_getFeed _ _ _ _ _ Ha).
  destruct (negb _); [by apply Promise_map_length in Ha0|by injection Ha0 as <-].
Qed.

(** C10. In a run that builds its document the heading of the
    announcements is in the body; when the announcement feed has no item
    in the range, the heading is followed by the text [No updates.] and
    the sections of the other sources follow. *)
Theorem announcements_always_rendered env event l :
  settled (buildDocument env event) = Resolved l →
  let lang := Event.lang event in
  let preamble :=
    [headerOrdered false; text (JSON_stringify env (frontMatter l)); newline;
     text (pubDateRange l); newline] in
  let sections :=
    renderYoutube (youtube (data l)) ++ renderBlogs (blogs (data l))
    ++ renderOss (oss (data l)) in
  h3 (announcementsHeader lang) ∈ mdBody l
  ∧ (itemsInRange env announcementsFeedUrl (oldestPubDate l) (latestPubDate l) = [] →
     announcements (data l) = []
     ∧ mdBody l = preamble
                  ++ [h3 (announcementsHeader lang); text "No updates."; newline]
                  ++ sections).
Proof.
  intros (_ & _ & (tags & Hf & _) & _ & _ & _ & Hbody)%buildDocument_resolved.
  cbn zeta in *. rewrite Hbody. split.
  - apply h3_in_render. by left.
  - intros Hz. apply fetchAnnouncements_resolved in Hf as [_ Hl].
    rewrite Hz in Hl. destruct (announcements (data l)) as [|? ?] eqn:E; [|done].
    split; [done|]. unfold render. by rewrite E.
Qed.

(** The Tuesday run of the sample deployment. *)
Lemma announcements_always_rendered_witness :
  ∃ l, settled (buildDocument Sample.env (Sample.tuesdayRun "en")) = Resolved l
       ∧ announcements (data l) = []
       ∧ mdBody l =
           [headerOrdered false; text (JSON_stringify Sample.env (frontMatter l)); newline;
            text (pubDateRange l); newline]
           ++ [h3 "Recent Announcements"; text "No updates."; newline]
           ++ renderYoutube (youtube (data l)) ++ renderBlogs (blogs (data l))
           ++ renderOss (oss (data l)).
Proof.
  run_document Sample.env (Sample.tuesdayRun "en").
  assert (H : settled (buildDocument Sample.env (Sample.tuesdayRun "en")) = Resolved _)
    by (vm_compute; reflexivity).
  split; [exact H|].
  apply (proj2 (announcements_always_rendered _ _ _ H)). reflexivity.
Defined.

(** ** Runs that complete *)

(** A run that resolves has built its document and written it. *)
Lemma handler_resolved env event payload :
  settled (handler env event) = Resolved payload →
  ∃ l, settled (buildDocument env event) = Resolved l
       ∧ S3Client_put env (putObjectCommand env l) = Resolved ()
       ∧ payload = Payload.mk (Event.lang event) (articleTitle l) (articleDescription l)
                              (pubDateRange l) (urlPath l).
Proof.
  unfold handler. intros H. inv_bind H. inv_bind H. injection H as <-.
  exists a. destruct a0. by repeat split.
Qed.

(** The tags of the front matter are the product tags of the announcements
    of the document. *)
Lemma frontMatter_tags env event l :
  settled (buildDocument env event) = Resolved l →
  FrontMatter.tags (frontMatter l)
  = Array_from_Set (flat_map products (announcements (data l))).
Proof.
  intros (_ & _ & (tags & Hf & ->) & _)%buildDocument_resolved.
  by apply fetchAnnouncements_resolved in Hf as [-> _].
Qed.

Lemma forOf_total {A S} (body : S → A → Async S) :
  (∀ acc x, ∃ acc', settled (body acc x) = Resolved acc') →
  ∀ l acc, ∃ acc', settled (forOf body l acc) = Resolved acc'.
Proof.
  intros Hbody. induction l as [|x l IH]; intros acc; cbn [forOf]; [by eexists|].
  destruct (Hbody acc x) as [acc1 H1]. destruct (IH acc1) as [acc' H'].
  exists acc'. apply bind_resolved. eauto.
Qed.

Section Total.

Variable env : Env.
Hypothesis translation_answers :
  ∀ cmd, ∃ out, TranslateClient_send env cmd = Resolved out.

Lemma translateTitles_total sourceLang lang items :
  ∃ outs, settled (translateTitles env sourceLang lang items) = Resolved outs.
Proof.
  destruct (batch_all_resolved env Item.title Item.set_title sourceLang lang items)
    as (outs & H & _); [by intros|].
  exists outs. unfold translateTitles. by rewrite H.
Qed.

Lemma translateSnippets_total lang items :
  ∃ outs, settled (translateSnippets env lang items) = Resolved outs.
Proof.
  destruct (batch_all_resolved env Item.contentSnippet Item.set_contentSnippet "en" lang items)
    as (outs & H & _); [by intros|].
  exists outs. unfold translateSnippets. by rewrite H.
Qed.

Lemma pushed_total (sourceLang lang : string) (translated : bool) items :
  ∃ r, settled (if translated then translateTitles env sourceLang lang items else mret items)
       = Resolved r.
Proof. destruct translated; [apply translateTitles_total|by eexists]. Qed.

Lemma playlistBody_total lang o la youtube playlist :
  ∃ youtube', settled (playlistBody env lang o la youtube playlist) = Resolved youtube'.
Proof.
  unfold playlistBody. cbn zeta.
  eapply bind_total_of; [apply getFeed_total|]. intros feed.
  destruct (0 <? _)%nat; [|by eexists].
  eapply bind_total_of; [apply pushed_total|]. intros r. by eexists.
Qed.

Lemma japanBlogBody_total lang o la blogs blog :
  ∃ blogs', settled (japanBlogBody env lang o la blogs blog) = Resolved blogs'.
Proof.
  unfold japanBlogBody. cbn zeta.
  eapply bind_total_of; [apply getFeed_total|]. intros feed.
  destruct (0 <? _)%nat; [|by eexists].
  eapply bind_total_of; [apply pushed_total|]. intros r. by eexists.
Qed.

Lemma blogBody_total lang o la blogs blog :
  ∃ blogs', settled (blogBody env lang o la blogs blog) = Resolved blogs'.
Proof.
  unfold blogBody. cbn zeta.
  eapply bind_total_of; [apply getFeed_total|]. intros feed.
  destruct (0 <? _)%nat; [|by eexists].
  eapply bind_total_of; [apply pushed_total|]. intros r. by eexists.
Qed.

Lemma repoBody_total o la oss repo :
  ∃ oss', settled (repoBody env o la oss repo) = Resolved oss'.
Proof.
  unfold repoBody. cbn zeta.
  eapply bind_total_of; [apply getFeed_total|]. intros feed.
  destruct (0 <? _)%nat; by eexists.
Qed.

Lemma fetchAnnouncements_total lang o la :
  ∃ r, settled (fetchAnnouncements env lang o la) = Resolved r.
Proof.
  unfold fetchAnnouncements. cbn zeta.
  destruct (getFeed_total env announcementsFeedUrl o la) as [feed Hf].
  assert (∃ r, settled (if negb (String.eqb lang "en")
                        then translateSnippets env lang (Feed.items feed)
                        else mret (Feed.items feed)) = Resolved r) as [r Hr]
    by (destruct (negb _); [apply translateSnippets_total|by eexists]).
  eexists. apply bind_resolved. eexists. split; [exact Hf|].
  apply bind_resolved. eexists. split; [exact Hr|]. done.
Qed.

Lemma frontMatterDate_total objectKey t :
  ∃ date, settled (frontMatterDate env objectKey (Some t)) = Resolved date.
Proof.
  unfold frontMatterDate. rewrite getMetadata_value.
  erewrite bind_of_resolved by done. cbn.
  destruct (match S3Client_head env _ with Resolved _ => _ | Rejected _ => _ end) as [d|];
    [destruct (negb _)|]; by eexists.
Qed.

(** A run on a valid time completes when the translation service and
    the store answer, whatever the feeds do. *)
Lemma buildDocument_total event t :
  new_Date env (Some (Event.time event)) = Some t →
  Z.abs t <= maxTime - 4 * msPerDay →
  ∃ l, settled (buildDocument env event) = Resolved l.
Proof.
  intros Hd Ht.
  destruct (pubDateWindow_ordered (LocalTZA env) t Ht) as (o & la & Hw & _).
  unfold buildDocument, window. rewrite Hd, Hw. cbn zeta.
  eapply bind_total; [reflexivity|].
  eapply bind_total_of; [apply frontMatterDate_total|]. intros date.
  eapply bind_total; [reflexivity|].
  eapply bind_total_of; [apply fetchAnnouncements_total|]. intros [tags anns].
  eapply bind_total_of; [apply forOf_total, playlistBody_total|]. intros yt.
  eapply bind_total_of; [apply forOf_total, japanBlogBody_total|]. intros jb.
  eapply bind_total_of; [apply forOf_total, blogBody_total|]. intros bl.
  eapply bind_total_of; [apply forOf_total, repoBody_total|]. intros os.
  by eexists.
Qed.

Lemma handler_total event t :
  new_Date env (Some (Event.time event)) = Some t →
  Z.abs t <= maxTime - 4 * msPerDay →
  (∀ cmd, S3Client_put env cmd = Resolved ()) →
  ∃ payload, settled (handler env event) = Resolved payload.
Proof.
  intros Hd Ht Hput. destruct (buildDocument_total event t Hd Ht) as [l Hl].
  unfold handler. eexists.
  apply bind_resolved. eexists. split; [exact Hl|].
  apply bind_resolved. exists (). split; [by rewrite Hput|]. reflexivity.
Qed.

End Total.

(* ===================================================================== *)
(** * Further properties of the code *)
(* ===================================================================== *)

(** ** The publication window *)

(** A local midnight has no hours and no minutes. *)
Lemma midnight_hours_minutes x :
  TimeWithinDay x = 0 → HourFromTime x = 0 ∧ MinFromTime x = 0.
Proof.
  unfold TimeWithinDay, HourFromTime, MinFromTime, msPerDay, msPerHour, msPerMinute.
  intros H. split; Z.to_euclidean_division_equations; lia.
Qed.

Lemma normalizeLatest_at_day_start tz n :
  HourFromTime (LocalTime tz n) = 0 → MinFromTime (LocalTime tz n) = 0 →
  normalizeLatest tz (Some n) = Some n.
Proof.
  intros Hh Hm. unfold normalizeLatest.
  cbn [getHours getMinutes fmap option_fmap option_map Number_neq].
  by rewrite Hh, Hm.
Qed.

(** The normalised date has no hours and no minutes. *)
Lemma normalizeLatest_day_start tz t n :
  Z.abs t <= maxTime - 4 * msPerDay →
  normalizeLatest tz (Some t) = Some n →
  HourFromTime (LocalTime tz n) = 0 ∧ MinFromTime (LocalTime tz n) = 0.
Proof.
  intros Ht. rewrite normalizeLatest_value by done. intros [= <-].
  destruct (Z.eqb_spec (HourFromTime (LocalTime tz t)) 0) as [Hh|Hh];
    destruct (Z.eqb_spec (MinFromTime (LocalTime tz t)) 0) as [Hm|Hm]; cbn [andb];
    [done|..]; apply midnight_hours_minutes; unfold TimeWithinDay;
    replace (LocalTime tz ((Day (LocalTime tz t) + 1) * msPerDay - tz))
      with ((Day (LocalTime tz t) + 1) * msPerDay) by (unfold LocalTime; lia);
    apply Z.mod_mul; unfold msPerDay; lia.
Qed.

Lemma pubDateWindow_normalized tz t :
  Z.abs t <= maxTime - 4 * msPerDay →
  normalizeLatest tz (normalizeLatest tz (Some t)) = normalizeLatest tz (Some t)
  ∧ pubDateWindow tz (normalizeLatest tz (Some t)) = pubDateWindow tz (Some t).
Proof.
  intros Ht.
  destruct (normalizeLatest tz (Some t)) as [n|] eqn:Hn;
    [|by rewrite normalizeLatest_value in Hn].
  destruct (normalizeLatest_day_start tz t n Ht Hn) as [Hh Hm].
  pose proof (normalizeLatest_at_day_start tz n Hh Hm) as Hi.
  split; [done|]. unfold pubDateWindow. by rewrite Hi, Hn.
Qed.

(** X1. The execution time lies in the window of its run: after
    [oldestPubDate] and not after [latestPubDate]. *)
Theorem execution_time_in_window tz t :
  Z.abs t <= maxTime - 4 * msPerDay →
  ∃ o l, pubDateWindow tz (Some t) = (Some o, Some l) ∧ o < t <= l.
Proof.
  intros Ht.
  destruct (normalizeLatest tz (Some t)) as [n|] eqn:Hn;
    [|by rewrite normalizeLatest_value in Hn].
  pose proof (normalizeLatest_bounds _ t n Ht Hn) as Hb.
  assert (Hlt : n - msPerDay < t).
  { rewrite normalizeLatest_value in Hn by done. injection Hn as <-.
    pose proof (Day_bounds (LocalTime tz t)) as Hd.
    destruct (Z.eqb_spec (HourFromTime (LocalTime tz t)) 0) as [Hh|Hh];
      destruct (Z.eqb_spec (MinFromTime (LocalTime tz t)) 0) as [Hm|Hm]; cbn [andb];
      try (unfold msPerDay; lia).
    all: assert (TimeWithinDay (LocalTime tz t) ≠ 0)
      by (intros [? ?]%midnight_hours_minutes; done).
    all: unfold TimeWithinDay, Day, LocalTime, msPerDay in *;
      Z.to_euclidean_division_equations; lia. }
  unfold pubDateWindow. rewrite Hn, adjustWeekday_value by in_range.
  cbn zeta.
  repeat match goal with |- context [if ?b then _ else _] => destruct b end;
    eexists _, _; (split; [reflexivity | unfold msPerDay in *; lia]).
Qed.

(** The draft run of Friday 2022-03-04 at 22:00 UTC. *)
Lemma execution_time_in_window_witness :
  ∃ o l, pubDateWindow 0 (Some Sample.fridayEvening) = (Some o, Some l)
         ∧ o < Sample.fridayEvening <= l.
Proof.
  apply (execution_time_in_window 0 Sample.fridayEvening). vm_compute; discriminate.
Defined.

(** X2. Normalising a normalised execution time changes nothing, and a
    run at the normalised time of another run has the window of that
    run: the draft run of the evening and the run of the following
    midnight cover the same window. *)
Theorem window_of_normalized_time tz t :
  Z.abs t <= maxTime - 4 * msPerDay →
  normalizeLatest tz (normalizeLatest tz (Some t)) = normalizeLatest tz (Some t)
  ∧ pubDateWindow tz (normalizeLatest tz (Some t)) = pubDateWindow tz (Some t).
Proof.
  intros Ht. destruct (pubDateWindow_normalized tz t Ht) as [Hn Hw]. by split.
Qed.

(** Friday 22:00 UTC is normalised to Saturday 00:00 UTC. *)
Lemma window_of_normalized_time_witness :
  normalizeLatest 0 (Some Sample.fridayEvening) = Some Sample.saturday
  ∧ pubDateWindow 0 (Some Sample.saturday) = pubDateWindow 0 (Some Sample.fridayEvening).
Proof.
  split; [reflexivity|].
  apply (proj2 (window_of_normalized_time 0 Sample.fridayEvening
                  ltac:(vm_compute; discriminate))).
Defined.

(** The window of a run at a local midnight, by the day of the week. *)
Lemma pubDateWindow_midnight tz n :
  Z.abs n <= maxTime - 4 * msPerDay →
  TimeWithinDay (LocalTime tz n) = 0 →
  pubDateWindow tz (Some n) =
    let w := WeekDay (LocalTime tz n) in
    if w =? 6 then (Some (n - msPerDay), Some (n + 2 * msPerDay))
    else if w =? 0 then (Some (n - 2 * msPerDay), Some (n + msPerDay))
    else if w =? 1 then (Some (n - 3 * msPerDay), Some n)
    else (Some (n - msPerDay), Some n).
Proof.
  intros Hn [Hh Hm]%midnight_hours_minutes. unfold pubDateWindow.
  rewrite normalizeLatest_at_day_start by done.
  apply adjustWeekday_value. in_range.
Qed.

Lemma next_day tz n :
  TimeWithinDay (LocalTime tz (n + msPerDay)) = TimeWithinDay (LocalTime tz n)
  ∧ WeekDay (LocalTime tz (n + msPerDay)) = (WeekDay (LocalTime tz n) + 1) mod 7.
Proof.
  unfold TimeWithinDay, WeekDay, Day, LocalTime, msPerDay.
  split; Z.to_euclidean_division_equations; lia.
Qed.

(** X3. The runs at the local midnights of a Saturday, of the Sunday
    after it and of the Monday after that have one and the same window,
    from the Friday to the Monday. *)
Theorem weekend_windows_coincide tz n :
  Z.abs n <= maxTime - 6 * msPerDay →
  TimeWithinDay (LocalTime tz n) = 0 →
  WeekDay (LocalTime tz n) = 6 →
  pubDateWindow tz (Some n) = (Some (n - msPerDay), Some (n + 2 * msPerDay))
  ∧ pubDateWindow tz (Some (n + msPerDay)) = pubDateWindow tz (Some n)
  ∧ pubDateWindow tz (Some (n + 2 * msPerDay)) = pubDateWindow tz (Some n).
Proof.
  intros Hn Hm Hw.
  destruct (next_day tz n) as [Hm1 Hw1]. rewrite Hm in Hm1. rewrite Hw in Hw1.
  destruct (next_day tz (n + msPerDay)) as [Hm2 Hw2]. rewrite Hm1 in Hm2. rewrite Hw1 in Hw2.
  replace (n + msPerDay + msPerDay) with (n + 2 * msPerDay) in * by lia.
  change ((6 + 1) mod 7) with 0 in *. change ((0 + 1) mod 7) with 1 in *.
  rewrite (pubDateWindow_midnight tz n) by (exact Hm || in_range).
  rewrite (pubDateWindow_midnight tz (n + msPerDay)) by (exact Hm1 || in_range).
  rewrite (pubDateWindow_midnight tz (n + 2 * msPerDay)) by (exact Hm2 || in_range).
  cbn zeta. rewrite Hw, Hw1, Hw2. cbn [Z.eqb Pos.eqb].
  split; [reflexivity|]. split; f_equal; f_equal; lia.
Qed.

(** Saturday 2022-03-05, Sunday 2022-03-06 and Monday 2022-03-07 at
    00:00 UTC. *)
Lemma weekend_windows_coincide_witness :
  pubDateWindow 0 (Some Sample.saturday)
  = (Some (Sample.saturday - msPerDay), Some (Sample.saturday + 2 * msPerDay))
  ∧ pubDateWindow 0 (Some (Sample.saturday + msPerDay)) = pubDateWindow 0 (Some Sample.saturday)
  ∧ pubDateWindow 0 (Some (Sample.saturday + 2 * msPerDay))
    = pubDateWindow 0 (Some Sample.saturday).
Proof.
  apply (weekend_windows_coincide 0 Sample.saturday);
    [vm_compute; discriminate | reflexivity | reflexivity].
Defined.

(** X4. The windows of the runs at two consecutive local midnights
    either coincide or abut: the later window starts where the earlier
    one ends, so that the windows of the daily runs neither overlap in
    part nor leave a gap. *)
Theorem consecutive_windows_abut_or_coincide tz n :
  Z.abs n <= maxTime - 6 * msPerDay →
  TimeWithinDay (LocalTime tz n) = 0 →
  ∃ o1 l1 o2 l2,
    pubDateWindow tz (Some n) = (Some o1, Some l1)
    ∧ pubDateWindow tz (Some (n + msPerDay)) = (Some o2, Some l2)
    ∧ ((o2 = o1 ∧ l2 = l1) ∨ o2 = l1).
Proof.
  intros Hn Hm.
  destruct (next_day tz n) as [Hm1 Hw1]. rewrite Hm in Hm1.
  rewrite (pubDateWindow_midnight tz n) by (exact Hm || in_range).
  rewrite (pubDateWindow_midnight tz (n + msPerDay)) by (exact Hm1 || in_range).
  cbn zeta. rewrite Hw1.
  destruct (WeekDay_cases (LocalTime tz n)) as [H|[H|[H|[H|[H|[H|H]]]]]];
    rewrite H;
    match goal with |- context [(?a + 1) mod 7] =>
      let v := eval vm_compute in ((a + 1) mod 7) in change ((a + 1) mod 7) with v end;
    cbn [Z.eqb Pos.eqb];
    eexists _, _, _, _; (split; [reflexivity|]; split; [reflexivity|]); lia.
Qed.

(** Monday 2022-03-07 and Tuesday 2022-03-08 at 00:00 UTC: the window of
    the Tuesday starts at the end of the window of the Monday. *)
Lemma consecutive_windows_abut_or_coincide_witness :
  ∃ o1 l1 o2 l2,
    pubDateWindow 0 (Some (Sample.saturday + 2 * msPerDay)) = (Some o1, Some l1)
    ∧ pubDateWindow 0 (Some (Sample.saturday + 2 * msPerDay + msPerDay)) = (Some o2, Some l2)
    ∧ ((o2 = o1 ∧ l2 = l1) ∨ o2 = l1).
Proof.
  apply (consecutive_windows_abut_or_coincide 0 (Sample.saturday + 2 * msPerDay));
    [vm_compute; discriminate | reflexivity].
Defined.

(** ** The feed adapter *)

Lemma filter_sublist {A} (keep : A → bool) (l : list A) : List.filter keep l `sublist_of` l.
Proof.
  induction l as [|x l IH]; cbn; [constructor|].
  destruct (keep x); by constructor.
Qed.

Lemma itemsInRange_value env feedUrl oldest latest :
  itemsInRange env feedUrl oldest latest =
    match parseURL env feedUrl with
    | Resolved feed =>
        List.filter
          (λ item, Date_gt (new_Date env (Item.pubDate item)) oldest
                   && Date_le (new_Date env (Item.pubDate item)) latest)
          (Feed.items feed)
    | Rejected _ => []
    end.
Proof.
  unfold itemsInRange. destruct (parseURL env feedUrl) as [feed|err] eqn:H.
  - by rewrite (getFeed_resolved _ _ _ _ _ H).
  - by rewrite (getFeed_rejected _ _ _ _ _ H).
Qed.

Lemma itemsInRange_elem env feedUrl o l item :
  item ∈ itemsInRange env feedUrl (Some o) (Some l) ↔
  ∃ feed p, parseURL env feedUrl = Resolved feed ∧ item ∈ Feed.items feed
            ∧ new_Date env (Item.pubDate item) = Some p ∧ o < p <= l.
Proof.
  rewrite itemsInRange_value. destruct (parseURL env feedUrl) as [feed|err].
  - rewrite list_elem_of_In, filter_In, andb_true_iff, <- list_elem_of_In.
    destruct (new_Date env (Item.pubDate item)) as [p|]; cbn.
    + rewrite Z.ltb_lt, Z.leb_le. split.
      * intros (? & ? & ?). by exists feed, p.
      * intros (? & q & [= <-] & ? & [= <-] & ?). done.
    + split; [by intros (_ & [=] & _)|]. by intros (? & q & _ & _ & [=] & _).
  - rewrite elem_of_nil. split; [done|]. by intros (? & ? & [=] & _).
Qed.

(** An item a feed step keeps was published in the window. *)
Lemma itemsInRange_inv env feedUrl oldest latest item :
  item ∈ itemsInRange env feedUrl oldest latest →
  ∃ o la p, oldest = Some o ∧ latest = Some la
            ∧ new_Date env (Item.pubDate item) = Some p ∧ o < p <= la.
Proof.
  rewrite itemsInRange_value. destruct (parseURL env feedUrl) as [feed|err];
    [|by intros ?%elem_of_nil].
  rewrite list_elem_of_In, filter_In, andb_true_iff.
  intros (_ & Hgt & Hle).
  destruct (new_Date env (Item.pubDate item)) as [p|], oldest as [o|], latest as [la|];
    try done.
  cbn in Hgt, Hle. apply Z.ltb_lt in Hgt. apply Z.leb_le in Hle.
  by exists o, la, p.
Qed.

(** X5. On a feed that answers, [getFeed] writes nothing to the console
    and resolves to a feed with the title of the answer whose items are
    items of the answer in their order: none is added, none is moved. *)
Theorem getFeed_preserves_order env feedUrl oldest latest feed :
  parseURL env feedUrl = Resolved feed →
  ∃ kept,
    getFeed env feedUrl oldest latest = mkAsync (Resolved kept) []
    ∧ Feed.title kept = Feed.title feed
    ∧ Feed.items kept `sublist_of` Feed.items feed.
Proof.
  intros H. rewrite (getFeed_resolved _ _ _ _ _ H). eexists. split; [done|].
  split; [done|]. apply filter_sublist.
Qed.

(** The announcement feed of the sample deployment on the window of the
    Saturday run. *)
Lemma getFeed_preserves_order_witness :
  ∃ kept,
    getFeed Sample.env announcementsFeedUrl (Some (Sample.saturday - msPerDay))
            (Some (Sample.saturday + 2 * msPerDay))
    = mkAsync (Resolved kept) []
    ∧ Feed.title kept = Some "What's New"
    ∧ Feed.items kept `sublist_of` Feed.items Sample.announcementFeed.
Proof.
  apply (getFeed_preserves_order Sample.env announcementsFeedUrl _ _ Sample.announcementFeed).
  reflexivity.
Defined.

(** X6. With an invalid bound, or with a latest date that is not after
    the oldest one, [getFeed] resolves to a feed without items, whatever
    the feed holds. *)
Theorem getFeed_degenerate_window env feedUrl oldest latest :
  oldest = None ∨ latest = None
  ∨ (∃ o l, oldest = Some o ∧ latest = Some l ∧ l <= o) →
  ∃ kept,
    settled (getFeed env feedUrl oldest latest) = Resolved kept ∧ Feed.items kept = [].
Proof.
  intros Hw.
  assert (Hnone : ∀ item,
    Date_gt (new_Date env (Item.pubDate item)) oldest
    && Date_le (new_Date env (Item.pubDate item)) latest = false).
  { intros item. destruct (new_Date env (Item.pubDate item)) as [p|]; [|done].
    destruct Hw as [->|[->|(o & l & -> & -> & Hol)]]; cbn.
    - done.
    - apply andb_false_r.
    - apply andb_false_iff. rewrite Z.ltb_ge, Z.leb_gt. lia. }
  destruct (parseURL env feedUrl) as [feed|err] eqn:H.
  - rewrite (getFeed_resolved _ _ _ _ _ H). eexists. split; [done|]. cbn.
    induction (Feed.items feed) as [|x xs IH]; cbn; [done|]. by rewrite Hnone.
  - rewrite (getFeed_rejected _ _ _ _ _ H). by eexists.
Qed.

(** The announcement feed of the sample deployment with an invalid
    latest date. *)
Lemma getFeed_degenerate_window_witness :
  ∃ kept,
    settled (getFeed Sample.env announcementsFeedUrl (Some Sample.saturday) None)
    = Resolved kept
    ∧ Feed.items kept = [].
Proof.
  apply (getFeed_degenerate_window Sample.env announcementsFeedUrl (Some Sample.saturday) None).
  right. left. reflexivity.
Defined.

(** X7. Two windows that abut share no item and lose none: an item is in
    the range from [a] to [c] exactly when it is in the range from [a]
    to [b] or in the range from [b] to [c], and never in both. *)
Theorem adjacent_windows_split env feedUrl a b c item :
  a <= b <= c →
  (item ∈ itemsInRange env feedUrl (Some a) (Some c) ↔
   item ∈ itemsInRange env feedUrl (Some a) (Some b)
   ∨ item ∈ itemsInRange env feedUrl (Some b) (Some c))
  ∧ ¬ (item ∈ itemsInRange env feedUrl (Some a) (Some b)
       ∧ item ∈ itemsInRange env feedUrl (Some b) (Some c)).
Proof.
  intros Habc. rewrite !itemsInRange_elem. split; [split|].
  - intros (feed & p & Hf & Hi & Hp & Hr).
    destruct (Z.le_gt_cases p b); [left|right]; exists feed, p; repeat split; (done || lia).
  - intros [(feed & p & Hf & Hi & Hp & Hr)|(feed & p & Hf & Hi & Hp & Hr)];
      exists feed, p; repeat split; (done || lia).
  - intros [(feed & p & Hf & Hi & Hp & Hr) (feed' & q & _ & _ & Hq & Hr')].
    rewrite Hp in Hq. injection Hq as <-. lia.
Qed.

(** The item of Friday 09:30 is in the window of the Saturday run and
    not in the window that follows it. *)
Lemma adjacent_windows_split_witness :
  Sample.inside ∈ itemsInRange Sample.env announcementsFeedUrl
                    (Some (Sample.saturday - msPerDay)) (Some (Sample.saturday + 2 * msPerDay))
  ∧ (Sample.inside ∉ itemsInRange Sample.env announcementsFeedUrl
                       (Some (Sample.saturday + 2 * msPerDay))
                       (Some (Sample.saturday + 3 * msPerDay))).
Proof.
  pose proof (adjacent_windows_split Sample.env announcementsFeedUrl
                (Sample.saturday - msPerDay) (Sample.saturday + 2 * msPerDay)
                (Sample.saturday + 3 * msPerDay) Sample.inside
                ltac:(vm_compute; split; discriminate)) as [_ Hnot].
  assert (Hin : Sample.inside ∈ itemsInRange Sample.env announcementsFeedUrl
                  (Some (Sample.saturday - msPerDay)) (Some (Sample.saturday + 2 * msPerDay))).
  { apply itemsInRange_elem.
    exists Sample.announcementFeed, (Sample.saturday - msPerDay + 34200000).
    repeat split; try reflexivity; [|vm_compute; discriminate].
    unfold Sample.announcementFeed. cbn [Feed.items]. set_solver. }
  split; [exact Hin|]. intros Hin'. apply Hnot. by split.
Defined.

(** ** The translator *)

(** X8. A translation that resolves is the text itself or a string that
    is not empty; so the translation of a text that is not empty is
    never empty and never [undefined]. *)
Theorem translate_never_blanks env text sourceLanguageCode targetLanguageCode r :
  settled (translate env text sourceLanguageCode targetLanguageCode) = Resolved r →
  (r = text ∨ truthy r = true)
  ∧ (truthy text = true → truthy r = true).
Proof.
  unfold translate. cbn zeta. intros H. inv_bind H. injection H as <-.
  unfold or_else. destruct (truthy (TranslatedText a)) eqn:E; auto.
Qed.

(** The sample service returns no text for one title: the title is
    kept. *)
Lemma translate_never_blanks_witness :
  settled (translate Sample.env (Some "inside") "ja" "en") = Resolved (Some "inside")
  ∧ truthy (Some "inside") = true.
Proof.
  assert (H : settled (translate Sample.env (Some "inside") "ja" "en")
              = Resolved (Some "inside")) by reflexivity.
  split; [exact H|].
  apply (proj2 (translate_never_blanks Sample.env (Some "inside") "ja" "en" _ H)).
  reflexivity.
Defined.

Section Frame.

Variable env : Env.
Variable get : Item.t → MaybeString.
Variable set : MaybeString → Item.t → Item.t.
Variables src tgt : string.

Lemma batch_resolved_shape items outs :
  settled (Promise.map (λ item, t ← translate env (get item) src tgt; mret (set t item)) items)
  = Resolved outs →
  Forall2 (λ item out, ∃ t, out = set t item) items outs.
Proof.
  revert outs. induction items as [|x items IH]; intros outs; cbn [Promise.map].
  - intros [= <-]. constructor.
  - intros H. inv_bind H. inv_bind H. injection H as <-.
    inv_bind Ha. injection Ha as <-. constructor; eauto.
Qed.

End Frame.

Lemma translateSnippets_shape env lang items outs :
  settled (translateSnippets env lang items) = Resolved outs →
  Forall2 (λ item out, ∃ t, out = Item.set_contentSnippet t item) items outs.
Proof. apply batch_resolved_shape. Qed.

Lemma translateTitles_shape env sourceLang lang items outs :
  settled (translateTitles env sourceLang lang items) = Resolved outs →
  Forall2 (λ item out, ∃ t, out = Item.set_title t item) items outs.
Proof. apply batch_resolved_shape. Qed.

(** X9. A translation batch that resolves returns the items in their
    order, each changed in the translated field only: the batch of the
    snippets keeps title, link, date and categories, the batch of the
    titles keeps snippet, link, date and categories. *)
Theorem translation_keeps_other_fields env lang items outs :
  (settled (translateSnippets env lang items) = Resolved outs →
   Forall2 (λ item out,
              Item.title out = Item.title item ∧ Item.link out = Item.link item
              ∧ Item.pubDate out = Item.pubDate item
              ∧ Item.categories out = Item.categories item) items outs)
  ∧ (∀ sourceLang,
       settled (translateTitles env sourceLang lang items) = Resolved outs →
       Forall2 (λ item out,
                  Item.contentSnippet out = Item.contentSnippet item
                  ∧ Item.link out = Item.link item
                  ∧ Item.pubDate out = Item.pubDate item
                  ∧ Item.categories out = Item.categories item) items outs).
Proof.
  split.
  - intros H%translateSnippets_shape. eapply Forall2_impl; [exact H|].
    by intros item out [t ->].
  - intros sourceLang H%translateTitles_shape. eapply Forall2_impl; [exact H|].
    by intros item out [t ->].
Qed.

(** ** The tags *)

Lemma foldl_Set_add_cons x members l :
  foldl Set_add (x :: members) l
  = x :: foldl Set_add members (List.filter (λ y, negb (String.eqb y x)) l).
Proof.
  revert members. induction l as [|y l IH]; intros members; cbn [foldl List.filter]; [done|].
  destruct (String.eqb_spec y x) as [->|Hne]; cbn [negb].
  - unfold Set_add at 2. rewrite decide_True by (by left). apply IH.
  - cbn [foldl].
    assert (Set_add (x :: members) y = x :: Set_add members y) as ->; [|apply IH].
    unfold Set_add. destruct (decide (y ∈ members)) as [Hy|Hy].
    + rewrite decide_True by (by right). done.
    + rewrite decide_False; [done|]. by intros [?|?]%elem_of_cons.
Qed.

(** X10. Removing the duplicates keeps the tags in the order in which
    each was first pushed: the first tag comes first, followed by the
    other tags, without it, treated in the same way. *)
Theorem tags_in_first_seen_order x l :
  Array_from_Set [] = []
  ∧ Array_from_Set (x :: l)
    = x :: Array_from_Set (List.filter (λ y, negb (String.eqb y x)) l).
Proof.
  split; [done|]. unfold Array_from_Set. cbn [foldl].
  change (Set_add [] x) with [x]. apply foldl_Set_add_cons.
Qed.

(** ** The names and the dates of a run *)

(** The names a run derives from its window and its language. *)
Lemma buildDocument_names env event l :
  settled (buildDocument env event) = Resolved l →
  ∃ t o,
    new_Date env (Some (Event.time event)) = Some t
    ∧ oldestPubDate l = Some o
    ∧ articleTitle l = hd "" (split "T"%char (Date_toISOString env o))
    ∧ urlPath l = "headlines/" +:+ removeAll "-"%char (articleTitle l)
    ∧ objectKey l = hugoContentPath env +:+ "/" +:+ urlPath l +:+ "/index."
                    +:+ Event.lang event +:+ ".md"
    ∧ pubDateRange l
      = formatRange env (Event.lang event) (oldestPubDate l) (latestPubDate l)
    ∧ FrontMatter.title (frontMatter l) = articleTitle l
    ∧ FrontMatter.draft (frontMatter l) = Event.isDraft event
    ∧ FrontMatter.lastmod (frontMatter l) = Date_toISOString env t.
Proof.
  unfold buildDocument. destruct (window env event) as [o la] eqn:Hw.
  intros H. cbn zeta in H.
  inv_bind H. inv_bind H. inv_bind H. inv_bind H.
  destruct a2 as [tags anns].
  inv_bind H. inv_bind H. inv_bind H. inv_bind H.
  cbv [mret Async_ret settled] in H. injection H as <-.
  destruct o as [o|]; [|cbn in Ha; congruence]. cbn in Ha. injection Ha as <-.
  destruct (new_Date env (Some (Event.time event))) as [t|] eqn:Hd;
    [|cbn in Ha1; congruence].
  cbn in Ha1. injection Ha1 as <-. exists t, o. by repeat split.
Qed.

(** X11. A request whose time is not a date is rejected with a
    [RangeError] before any feed is read: nothing is written to the
    console and no document is built. *)
Theorem invalid_time_rejects env event :
  new_Date env (Some (Event.time event)) = None →
  handler env event = mkAsync (Rejected "RangeError: Invalid time value") []
  ∧ buildDocument env event = mkAsync (Rejected "RangeError: Invalid time value") [].
Proof.
  intros H.
  assert (Hb : buildDocument env event
               = mkAsync (Rejected "RangeError: Invalid time value") []).
  { unfold buildDocument, window. by rewrite H. }
  split; [|done]. unfold handler. by rewrite Hb.
Qed.

(** A request of the sample deployment whose time cannot be parsed. *)
Lemma invalid_time_rejects_witness :
  handler Sample.env Sample.unreadableRun
  = mkAsync (Rejected "RangeError: Invalid time value") [].
Proof. apply (proj1 (invalid_time_rejects Sample.env Sample.unreadableRun eq_refl)). Defined.

Lemma String_append_assoc a b c : (a +:+ b) +:+ c = a +:+ b +:+ c.
Proof.
  induction a as [|x a IH]; [by rewrite !append_nil_l|]. by rewrite !append_cons, IH.
Qed.

Lemma split_piece sep piece rest :
  Forall (λ c, c ≠ sep) (String.list_ascii_of_string piece) →
  split sep (piece +:+ String sep rest) = piece :: split sep rest.
Proof.
  induction piece as [|c piece IH]; cbn [String.list_ascii_of_string].
  - intros _. rewrite append_nil_l. cbn [split]. by rewrite Ascii.eqb_refl.
  - intros [Hc Hp]%Forall_cons. rewrite append_cons. cbn [split].
    apply Ascii.eqb_neq in Hc as ->. by rewrite (IH Hp).
Qed.

Lemma removeAll_append c a b : removeAll c (a +:+ b) = removeAll c a +:+ removeAll c b.
Proof.
  induction a as [|x a IH]; [by rewrite !append_nil_l|].
  rewrite append_cons. cbn [removeAll]. destruct (Ascii.eqb x c); [done|].
  by rewrite append_cons, IH.
Qed.

Lemma removeAll_absent c s :
  Forall (λ x, x ≠ c) (String.list_ascii_of_string s) → removeAll c s = s.
Proof.
  induction s as [|x s IH]; cbn [String.list_ascii_of_string removeAll]; [done|].
  intros [Hx Hs]%Forall_cons. apply Ascii.eqb_neq in Hx as ->. by rewrite (IH Hs).
Qed.

Lemma list_ascii_of_string_append a b :
  String.list_ascii_of_string (a +:+ b)
  = String.list_ascii_of_string a ++ String.list_ascii_of_string b.
Proof.
  induction a as [|x a IH]; [by rewrite append_nil_l|].
  rewrite append_cons. cbn. by rewrite IH.
Qed.

(** X12. When the ISO string of [oldestPubDate] is [y-m-dT...], with no
    hyphen and no [T] in [y], [m] and [d], the title of the article and
    of the front matter is [y-m-d], the path is [headlines/ymd] and the
    object key is [<content path>/headlines/ymd/index.<lang>.md]: the
    article is named after the first day of its window. *)
Theorem article_named_after_oldest_day (env : Env) (event : Event.t) (l : Locals)
    (o : Z) (y m d time : string) :
  settled (buildDocument env event) = Resolved l →
  oldestPubDate l = Some o →
  Date_toISOString env o = y +:+ "-" +:+ m +:+ "-" +:+ d +:+ "T" +:+ time →
  Forall (λ c, c ≠ "-"%char ∧ c ≠ "T"%char) (String.list_ascii_of_string (y +:+ m +:+ d)) →
  articleTitle l = y +:+ "-" +:+ m +:+ "-" +:+ d
  ∧ FrontMatter.title (frontMatter l) = y +:+ "-" +:+ m +:+ "-" +:+ d
  ∧ urlPath l = "headlines/" +:+ y +:+ m +:+ d
  ∧ objectKey l = hugoContentPath env +:+ "/" +:+ "headlines/" +:+ y +:+ m +:+ d
                  +:+ "/index." +:+ Event.lang event +:+ ".md".
Proof.
  intros H Ho Hiso Hc.
  destruct (buildDocument_names _ _ _ H) as (t & o' & _ & Ho' & Ha & Hu & Hk & _ & Ht & _).
  rewrite Ho in Ho'. injection Ho' as <-.
  rewrite !list_ascii_of_string_append, !Forall_app in Hc. destruct Hc as (Hy & Hm & Hd).
  assert (Htitle : articleTitle l = y +:+ "-" +:+ m +:+ "-" +:+ d).
  { rewrite Ha, Hiso.
    replace (y +:+ "-" +:+ m +:+ "-" +:+ d +:+ "T" +:+ time)
      with ((y +:+ "-" +:+ m +:+ "-" +:+ d) +:+ String "T" time).
    - rewrite split_piece; [done|].
      rewrite !list_ascii_of_string_append, !Forall_app. cbn.
      repeat split; try (eapply Forall_impl; [eassumption|]; by intros ? [? ?]).
      all: by repeat constructor.
    - by rewrite !String_append_assoc. }
  assert (Hpath : urlPath l = "headlines/" +:+ y +:+ m +:+ d).
  { rewrite Hu, Htitle. rewrite !removeAll_append.
    rewrite (removeAll_absent _ y), (removeAll_absent _ m), (removeAll_absent _ d);
      try (eapply Forall_impl; [eassumption|]; by intros ? [? ?]).
    change (removeAll "-" "-") with "". by rewrite !append_nil_l. }
  repeat split; [done|congruence| done |].
  rewrite Hk, Hpath. by rewrite !String_append_assoc.
Qed.

(** The Saturday run of the sample deployment, whose window starts on
    2022-03-04. *)
Lemma article_named_after_oldest_day_witness :
  ∃ l, settled (buildDocument Sample.env (Sample.saturdayRun "en")) = Resolved l
       ∧ articleTitle l = "2022-03-04"
       ∧ FrontMatter.title (frontMatter l) = "2022-03-04"
       ∧ urlPath l = "headlines/20220304"
       ∧ objectKey l = "content/headlines/20220304/index.en.md".
Proof.
  run_document Sample.env (Sample.saturdayRun "en").
  assert (H : settled (buildDocument Sample.env (Sample.saturdayRun "en")) = Resolved _)
    by (vm_compute; reflexivity).
  split; [exact H|].
  apply (article_named_after_oldest_day Sample.env _ _ (Sample.saturday - msPerDay)
           "2022" "03" "04" "00:00:00.000Z" H); [reflexivity|reflexivity|].
  repeat constructor; discriminate.
Defined.

(** X13. A draft run and the final run at the normalised time of the
    draft run (the draft of the evening and the run of the following
    midnight), in the same language, have the same window, the same
    range line, the same path and the same object key, whatever the
    store answers to the final run; and when the store answers the
    lookup at that key with the metadata the draft run wrote, the final
    document keeps the date of the draft. *)
Theorem final_run_replaces_draft (env : Env)
    (head : HeadObjectCommand → Settled HeadObjectOutput)
    (draft final : Event.t) (t : Z) (l1 l2 : Locals) :
  Event.lang draft = Event.lang final →
  new_Date env (Some (Event.time draft)) = Some t →
  Z.abs t <= maxTime - 4 * msPerDay →
  new_Date env (Some (Event.time final)) = normalizeLatest (LocalTZA env) (Some t) →
  settled (buildDocument env draft) = Resolved l1 →
  settled (buildDocument (withHead env head) final) = Resolved l2 →
  (oldestPubDate l2 = oldestPubDate l1
   ∧ latestPubDate l2 = latestPubDate l1
   ∧ pubDateRange l2 = pubDateRange l1
   ∧ urlPath l2 = urlPath l1
   ∧ objectKey l2 = objectKey l1)
  ∧ (head (mkHead (bucketName env) (objectKey l1))
     = Resolved (mkHeadOutput (Some (put_Metadata (putObjectCommand env l1)))) →
     FrontMatter.date (frontMatter l1) ≠ "" →
     FrontMatter.date (frontMatter l2) = FrontMatter.date (frontMatter l1)).
Proof.
  intros Hlang Hd Ht Hf H1 H2.
  pose proof (buildDocument_resolved _ _ _ H1) as (Hw1 & _).
  pose proof (buildDocument_resolved _ _ _ H2) as (Hw2 & Hdate & _).
  cbn zeta in Hw1, Hw2, Hdate. unfold window in Hw1, Hw2.
  change (new_Date (withHead env head)) with (new_Date env) in *.
  change (LocalTZA (withHead env head)) with (LocalTZA env) in *.
  rewrite Hd in Hw1. rewrite Hf in Hw2.
  destruct (pubDateWindow_normalized (LocalTZA env) t Ht) as [_ Hsame].
  rewrite Hsame, Hw1 in Hw2. injection Hw2 as Ho Hl.
  destruct (buildDocument_names _ _ _ H1) as (t1 & o1 & _ & Ho1 & Ha1 & Hu1 & Hk1 & Hr1 & _).
  destruct (buildDocument_names _ _ _ H2) as (t2 & o2 & _ & Ho2 & Ha2 & Hu2 & Hk2 & Hr2 & _).
  change (Date_toISOString (withHead env head)) with (Date_toISOString env) in *.
  change (hugoContentPath (withHead env head)) with (hugoContentPath env) in *.
  change (formatRange (withHead env head)) with (formatRange env) in *.
  assert (o2 = o1) as -> by congruence.
  assert (articleTitle l2 = articleTitle l1) as Ea by congruence.
  assert (urlPath l2 = urlPath l1) as Eu by congruence.
  assert (Ek : objectKey l2 = objectKey l1) by congruence.
  split; [repeat split; congruence|].
  intros Hhead Hne. rewrite Ek in Hdate.
  rewrite (frontMatterDate_stored (withHead env head) _ _ _ _ _ Hhead eq_refl
             (putObjectCommand_date env l1) Hne) in Hdate.
  by injection Hdate.
Qed.

(** The draft run of Friday 22:00 UTC and the final run of Saturday
    00:00 UTC over the object of the draft: the final document has the
    date of the draft and its own time as [lastmod]. *)
Lemma final_run_replaces_draft_witness :
  ∃ l1 l2,
    settled (buildDocument Sample.envHealthy (Sample.draftRun "ja")) = Resolved l1
    ∧ settled (buildDocument
                 (withHead Sample.envHealthy
                    (λ _, Resolved (mkHeadOutput
                                      (Some (put_Metadata
                                               (putObjectCommand Sample.envHealthy l1))))))
                 (Sample.saturdayRun "ja")) = Resolved l2
    ∧ objectKey l2 = objectKey l1
    ∧ FrontMatter.date (frontMatter l2) = "2022-03-04T22:00:00.000Z"
    ∧ FrontMatter.lastmod (frontMatter l2) = "2022-03-05T00:00:00.000Z".
Proof.
  run_document Sample.envHealthy (Sample.draftRun "ja").
  match goal with |- ∃ l2, _ ∧ settled (buildDocument ?e ?ev) = _ ∧ _ =>
    run_document e ev end.
  match goal with |- ?A ∧ ?B ∧ _ =>
    assert (H1 : A) by (vm_compute; reflexivity);
    assert (H2 : B) by (vm_compute; reflexivity) end.
  split; [exact H1|]. split; [exact H2|].
  match type of H1 with _ = Resolved ?l1 =>
  match type of H2 with _ = Resolved ?l2 =>
    pose proof (final_run_replaces_draft Sample.envHealthy _ (Sample.draftRun "ja")
                  (Sample.saturdayRun "ja") Sample.fridayEvening l1 l2
                  eq_refl eq_refl ltac:(vm_compute; discriminate) eq_refl H1 H2)
      as [(_ & _ & _ & _ & Hk) Hdate]
  end end.
  split; [exact Hk|]. split; [|reflexivity].
  rewrite Hdate; [reflexivity|reflexivity|discriminate].
Defined.

(** ** Running a request again *)

Lemma bind_ext {A B} (m : Async A) (f g : A → Async B) :
  (∀ a, settled m = Resolved a → f a = g a) → m ≫= f = m ≫= g.
Proof.
  intros H. unfold mbind, Async_bind. destruct (settled m) as [a|e] eqn:E; [|done].
  by rewrite (H a).
Qed.

Lemma frontMatterDate_console env objectKey executedDate :
  console (frontMatterDate env objectKey executedDate) = [].
Proof.
  unfold frontMatterDate. rewrite getMetadata_value.
  erewrite bind_of_resolved by done. cbn.
  destruct (match S3Client_head env _ with Resolved _ => _ | Rejected _ => _ end) as [d|];
    [destruct (negb _)|]; done.
Qed.

(** X14. Running a request again over the object its first run wrote
    rebuilds the same document: when the store answers the lookup at the
    key of the document with the metadata written with it, the second
    run computes what the first run computed, date included. *)
Theorem rerun_rebuilds_same_document env event l head :
  settled (buildDocument env event) = Resolved l →
  FrontMatter.date (frontMatter l) ≠ "" →
  head (mkHead (bucketName env) (objectKey l))
  = Resolved (mkHeadOutput (Some (put_Metadata (putObjectCommand env l)))) →
  buildDocument (withHead env head) event = buildDocument env event.
Proof.
  intros H Hne Hhead.
  pose proof (buildDocument_resolved _ _ _ H) as (Hw & Hdate & _).
  destruct (buildDocument_names _ _ _ H) as (t & o & Ht & Ho & Ha & Hu & Hk & _).
  cbn zeta in Hw, Hdate. rewrite Ho in Hw.
  unfold buildDocument.
  change (window (withHead env head) event) with (window env event).
  rewrite Hw. cbn zeta.
  apply bind_ext. intros a [= <-].
  rewrite <- Ha, <- Hu.
  change (hugoContentPath (withHead env head)) with (hugoContentPath env).
  rewrite <- Hk.
  change (new_Date (withHead env head) (Some (Event.time event)))
    with (new_Date env (Some (Event.time event))).
  assert (frontMatterDate (withHead env head) (objectKey l)
            (new_Date env (Some (Event.time event)))
          = frontMatterDate env (objectKey l) (new_Date env (Some (Event.time event)))) as ->;
    [|reflexivity].
  rewrite (frontMatterDate_stored (withHead env head) _ _ _ _ _ Hhead eq_refl
             (putObjectCommand_date env l) Hne).
  pose proof (frontMatterDate_console env (objectKey l)
                (new_Date env (Some (Event.time event)))) as Hc.
  destruct (frontMatterDate env _ _) as [s c]. cbn in Hdate, Hc. by subst.
Qed.

(** The Saturday run of the sample deployment, run again over its own
    object. *)
Lemma rerun_rebuilds_same_document_witness :
  ∃ l, settled (buildDocument Sample.env (Sample.saturdayRun "en")) = Resolved l
       ∧ buildDocument
           (withHead Sample.env
              (λ _, Resolved (mkHeadOutput
                                (Some (put_Metadata (putObjectCommand Sample.env l))))))
           (Sample.saturdayRun "en")
         = buildDocument Sample.env (Sample.saturdayRun "en").
Proof.
  run_document Sample.env (Sample.saturdayRun "en").
  assert (H : settled (buildDocument Sample.env (Sample.saturdayRun "en")) = Resolved _)
    by (vm_compute; reflexivity).
  split; [exact H|].
  apply (rerun_rebuilds_same_document _ _ _ _ H); [discriminate|reflexivity].
Defined.

(** ** The items of the document *)

Lemma set_title_same item : Item.set_title (Item.title item) item = item.
Proof. by destruct item. Qed.

Lemma set_contentSnippet_same item :
  Item.set_contentSnippet (Item.contentSnippet item) item = item.
Proof. by destruct item. Qed.

Lemma Forall2_same_shape {A} (f : MaybeString → A → A) (g : A → MaybeString) (l : list A) :
  (∀ x, f (g x) x = x) → Forall2 (λ a b, ∃ t, b = f t a) l l.
Proof. intros Hf. apply Forall_Forall2_diag, Forall_forall. intros x _. by exists (g x). Qed.

Section Items.

Variable env : Env.
Variable lang : string.
Variables o la : Date.

Let inRange (feedUrl : string) : list Item.t := itemsInRange env feedUrl o la.
Let nonempty (feedUrl : string) : bool := (0 <? length (inRange feedUrl))%nat.
Let retitled (items items' : list Item.t) : Prop :=
  Forall2 (λ a b, ∃ t, b = Item.set_title t a) items items'.

Lemma pushed_shape (sourceLang : string) (translated : bool) items (r : list Item.t) :
  settled (if translated then translateTitles env sourceLang lang items else mret items)
  = Resolved r →
  retitled items r.
Proof.
  destruct translated; [apply translateTitles_shape|].
  intros [= <-]. apply (Forall2_same_shape _ Item.title), set_title_same.
Qed.

Lemma playlistBody_items youtube playlist youtube' :
  settled (playlistBody env lang o la youtube playlist) = Resolved youtube' →
  if nonempty (playlistFeedUrl playlist)
  then ∃ g, retitled (inRange (playlistFeedUrl playlist)) (Channel.items g)
            ∧ youtube' = youtube ++ [g]
  else youtube' = youtube.
Proof.
  unfold playlistBody, nonempty, inRange. cbn zeta. intros H. inv_bind H.
  rewrite <- (itemsInRange_getFeed _ _ _ _ _ Ha).
  destruct (0 <? length (Feed.items a))%nat.
  - inv_bind H. injection H as <-. apply pushed_shape in Ha0.
    eexists. split; [|reflexivity]. by cbn.
  - by injection H.
Qed.

Lemma japanBlogBody_items blogs blog blogs' :
  settled (japanBlogBody env lang o la blogs blog) = Resolved blogs' →
  if nonempty (japanBlogFeedUrl blog)
  then ∃ g, retitled (inRange (japanBlogFeedUrl blog)) (Channel.items g)
            ∧ blogs' = blogs ++ [g]
  else blogs' = blogs.
Proof.
  unfold japanBlogBody, nonempty, inRange. cbn zeta. intros H. inv_bind H.
  rewrite <- (itemsInRange_getFeed _ _ _ _ _ Ha).
  destruct (0 <? length (Feed.items a))%nat.
  - inv_bind H. injection H as <-. apply pushed_shape in Ha0.
    eexists. split; [|reflexivity]. by cbn.
  - by injection H.
Qed.

Lemma blogBody_items blogs blog blogs' :
  settled (blogBody env lang o la blogs blog) = Resolved blogs' →
  if nonempty (blogFeedUrl blog)
  then ∃ g, retitled (inRange (blogFeedUrl blog)) (Channel.items g)
            ∧ blogs' = blogs ++ [g]
  else blogs' = blogs.
Proof.
  unfold blogBody, nonempty, inRange. cbn zeta. intros H. inv_bind H.
  rewrite <- (itemsInRange_getFeed _ _ _ _ _ Ha).
  destruct (0 <? length (Feed.items a))%nat.
  - inv_bind H. injection H as <-. apply pushed_shape in Ha0.
    eexists. split; [|reflexivity]. by cbn.
  - by injection H.
Qed.

Lemma fetchAnnouncements_shape tags anns :
  settled (fetchAnnouncements env lang o la) = Resolved (tags, anns) →
  Forall2 (λ a b, ∃ t, b = Item.set_contentSnippet t a) (inRange announcementsFeedUrl) anns
  ∧ tags = flat_map products anns.
Proof.
  unfold fetchAnnouncements, inRange. cbn zeta. intros H. inv_bind H. inv_bind H.
  injection H as <- <-. split; [|done].
  rewrite <- (itemsInRange_getFeed _ _ _ _ _ Ha).
  destruct (negb _); [by eapply translateSnippets_shape|].
  injection Ha0 as <-.
  apply (Forall2_same_shape _ Item.contentSnippet), set_contentSnippet_same.
Qed.

End Items.

(** Items that differ in their snippet alone carry the same product tags. *)
Lemma products_resnippeted items items' :
  Forall2 (λ a b, ∃ t, b = Item.set_contentSnippet t a) items items' →
  flat_map products items' = flat_map products items.
Proof.
  induction 1 as [|a b l l' [t ->] _ IH]; cbn; [done|]. by rewrite IH.
Qed.

(** X15. The tags of the front matter are the product tags of the items
    of the announcement feed published in the window, each once, in the
    order of the feed: the translation of the snippets has no part in
    them. *)
Theorem tags_come_from_the_feed env event l :
  settled (buildDocument env event) = Resolved l →
  FrontMatter.tags (frontMatter l)
  = Array_from_Set
      (flat_map products
         (itemsInRange env announcementsFeedUrl (oldestPubDate l) (latestPubDate l))).
Proof.
  intros (_ & _ & (tags & Hf & ->) & _)%buildDocument_resolved.
  apply fetchAnnouncements_shape in Hf as [Hs ->].
  by rewrite (products_resnippeted _ _ Hs).
Qed.

(** The Japanese run of Saturday in the second sample deployment: two
    announcements in the window, one product named twice. *)
Lemma tags_come_from_the_feed_witness :
  ∃ l, settled (buildDocument Sample.envHealthy (Sample.saturdayRun "ja")) = Resolved l
       ∧ FrontMatter.tags (frontMatter l) = ["aws-lambda"; "amazon-s3"].
Proof.
  run_document Sample.envHealthy (Sample.saturdayRun "ja").
  assert (H : settled (buildDocument Sample.envHealthy (Sample.saturdayRun "ja")) = Resolved _)
    by (vm_compute; reflexivity).
  split; [exact H|].
  rewrite (tags_come_from_the_feed _ _ _ H). reflexivity.
Defined.

Lemma kept_groups_in_window {A G} (keep : A → bool) (P : A → G → Prop)
    (items : G → list Item.t) (Q : Item.t → Prop) (l : list A) (gs : list G) :
  (∀ x g, keep x = true → P x g → Forall Q (items g)) →
  Forall2 P (List.filter keep l) gs →
  Forall (λ g, Forall Q (items g)) gs.
Proof.
  intros HP H. apply Forall_forall. intros g Hg.
  apply list_elem_of_lookup in Hg as [i Hi].
  destruct (Forall2_lookup_r _ _ _ _ _ H Hi) as (x & Hx & HPx).
  apply list_elem_of_lookup_2, list_elem_of_In, filter_In in Hx as [_ Hk]. eauto.
Qed.

(** X16. Every item of the document, in the announcements and in the
    groups of the three other sections, has a valid publication date in
    the window of the run: after [oldestPubDate] and not after
    [latestPubDate]. *)
Theorem document_items_are_in_window env event l :
  settled (buildDocument env event) = Resolved l →
  let inWindow item :=
    ∃ o la p, oldestPubDate l = Some o ∧ latestPubDate l = Some la
              ∧ new_Date env (Item.pubDate item) = Some p ∧ o < p <= la in
  Forall inWindow (announcements (data l))
  ∧ Forall (λ g, Forall inWindow (Channel.items g)) (youtube (data l))
  ∧ Forall (λ g, Forall inWindow (Channel.items g)) (blogs (data l))
  ∧ Forall (λ g, Forall inWindow (Project.items g)) (oss (data l)).
Proof.
  intros H inWindow.
  pose proof (buildDocument_resolved _ _ _ H)
    as (_ & _ & (tags & Hf & _) & Hy & (japan & Hj & Hb) & Ho & _).
  cbn zeta in *.
  assert (Hsnip : ∀ url items,
    Forall2 (λ a b, ∃ t, b = Item.set_contentSnippet t a)
            (itemsInRange env url (oldestPubDate l) (latestPubDate l)) items →
    Forall inWindow items).
  { intros url items Hs. apply Forall_forall. intros b Hb'.
    apply list_elem_of_lookup in Hb' as [i Hi].
    destruct (Forall2_lookup_r _ _ _ _ _ Hs Hi) as (a & Ha & t & ->).
    apply list_elem_of_lookup_2, itemsInRange_inv in Ha. exact Ha. }
  assert (Htitle : ∀ url items,
    Forall2 (λ a b, ∃ t, b = Item.set_title t a)
            (itemsInRange env url (oldestPubDate l) (latestPubDate l)) items →
    Forall inWindow items).
  { intros url items Hs. apply Forall_forall. intros b Hb'.
    apply list_elem_of_lookup in Hb' as [i Hi].
    destruct (Forall2_lookup_r _ _ _ _ _ Hs Hi) as (a & Ha & t & ->).
    apply list_elem_of_lookup_2, itemsInRange_inv in Ha. exact Ha. }
  split; [|split; [|split]].
  - apply fetchAnnouncements_shape in Hf as [Hs _]. by eapply Hsnip.
  - eapply forOf_pushes in Hy as (gs & -> & Hgs); [|apply playlistBody_items].
    eapply kept_groups_in_window; [|exact Hgs]. intros x g _ Hg. cbn beta in Hg. by eapply Htitle.
  - eapply forOf_pushes in Hj as (gj & -> & Hgj); [|apply japanBlogBody_items].
    eapply forOf_pushes in Hb as (gb & -> & Hgb); [|apply blogBody_items].
    apply Forall_app. split.
    + eapply kept_groups_in_window; [|exact Hgj]. intros x g _ Hg. cbn beta in Hg. by eapply Htitle.
    + eapply kept_groups_in_window; [|exact Hgb]. intros x g _ Hg. cbn beta in Hg. by eapply Htitle.
  - eapply forOf_pushes in Ho as (gs & -> & Hgs); [|apply repoBody_resolved].
    eapply kept_groups_in_window; [|exact Hgs].
    intros x g _ (_ & _ & ->). apply Forall_forall. intros a Ha.
    by apply itemsInRange_inv in Ha.
Qed.

(** The Saturday run of the sample deployment. *)
Lemma document_items_are_in_window_witness :
  ∃ l, settled (buildDocument Sample.env (Sample.saturdayRun "en")) = Resolved l
       ∧ length (announcements (data l)) = 2%nat
       ∧ Forall (λ item,
                   ∃ o la p, oldestPubDate l = Some o ∧ latestPubDate l = Some la
                             ∧ new_Date Sample.env (Item.pubDate item) = Some p
                             ∧ o < p <= la)
                (announcements (data l)).
Proof.
  run_document Sample.env (Sample.saturdayRun "en").
  assert (H : settled (buildDocument Sample.env (Sample.saturdayRun "en")) = Resolved _)
    by (vm_compute; reflexivity).
  split; [exact H|]. split; [reflexivity|].
  apply (proj1 (document_items_are_in_window _ _ _ H)).
Defined.

(** ** What the body holds *)

Lemma elem_of_flat_map {A B} (f : A → list B) (l : list A) (y : B) :
  y ∈ flat_map f l ↔ ∃ x, x ∈ l ∧ y ∈ f x.
Proof.
  rewrite list_elem_of_In, in_flat_map. split; intros (x & Hx & Hy); exists x;
    by rewrite ?list_elem_of_In in *.
Qed.

Lemma elem_of_entries x items :
  x ∈ flat_map renderEntry items ↔
  ∃ item, item ∈ items ∧ (x = text ("- " +:+ renderLink item) ∨ x = newline).
Proof.
  rewrite elem_of_flat_map. unfold renderEntry.
  setoid_rewrite elem_of_cons. setoid_rewrite list_elem_of_singleton. done.
Qed.

Lemma elem_of_renderAnnouncements x lang anns :
  x ∈ renderAnnouncements lang anns ↔
  x = h3 (announcementsHeader lang)
  ∨ (anns = [] ∧ (x = text "No updates." ∨ x = newline))
  ∨ ∃ item, item ∈ anns
            ∧ (x = bold (renderLink item) ∨ x = newline
               ∨ x = blockQuote (interpolate (Item.contentSnippet item))).
Proof.
  unfold renderAnnouncements. rewrite elem_of_cons.
  destruct anns as [|a anns]; cbn [length Nat.ltb Nat.leb].
  - rewrite elem_of_cons, list_elem_of_singleton. split; [tauto|].
    intros [?|[[_ ?]|(item & []%elem_of_nil & _)]]; tauto.
  - rewrite elem_of_flat_map. unfold renderAnnouncement.
    setoid_rewrite elem_of_cons. setoid_rewrite elem_of_cons.
    setoid_rewrite list_elem_of_singleton.
    split; [tauto|]. intros [?|[[[=] _]|?]]; tauto.
Qed.

Lemma elem_of_renderYoutube x youtube :
  x ∈ renderYoutube youtube ↔
  x = h3 "YouTube" ∧ youtube ≠ []
  ∨ ∃ g, g ∈ youtube
         ∧ (x = h4 (Channel.title g) ∨ x ∈ flat_map renderEntry (Channel.items g)).
Proof.
  unfold renderYoutube. destruct youtube as [|g0 gs]; cbn [length Nat.ltb Nat.leb].
  - rewrite elem_of_nil. split; [done|].
    intros [[_ []]|(g & []%elem_of_nil & _)]; done.
  - rewrite elem_of_cons, elem_of_flat_map. setoid_rewrite elem_of_cons.
    split; [|tauto]. intros [?|?]; [left|right]; done.
Qed.

Lemma elem_of_renderBlogs x blogs :
  x ∈ renderBlogs blogs ↔
  x = h3 "AWS Blogs" ∧ blogs ≠ []
  ∨ ∃ g, g ∈ blogs
         ∧ (x = h4 (Channel.title g) ∨ x = newline
            ∨ x ∈ flat_map renderEntry (Channel.items g)).
Proof.
  unfold renderBlogs. destruct blogs as [|g0 gs]; cbn [length Nat.ltb Nat.leb].
  - rewrite elem_of_nil. split; [done|].
    intros [[_ []]|(g & []%elem_of_nil & _)]; done.
  - rewrite elem_of_cons, elem_of_flat_map. setoid_rewrite elem_of_cons.
    setoid_rewrite elem_of_cons.
    split; [|tauto]. intros [?|?]; [left|right]; done.
Qed.

Lemma elem_of_renderOss x oss :
  x ∈ renderOss oss ↔
  x = h3 "Open Source Project" ∧ oss ≠ []
  ∨ ∃ g, g ∈ oss
         ∧ (x = h4 (Project.title g) ∨ x ∈ flat_map renderEntry (Project.items g)).
Proof.
  unfold renderOss. destruct oss as [|g0 gs]; cbn [length Nat.ltb Nat.leb].
  - rewrite elem_of_nil. split; [done|].
    intros [[_ []]|(g & []%elem_of_nil & _)]; done.
  - rewrite elem_of_cons, elem_of_flat_map. setoid_rewrite elem_of_cons.
    split; [|tauto]. intros [?|?]; [left|right]; done.
Qed.

(** Everything the body holds, section by section. *)
Lemma elem_of_render env lang fm range d x :
  x ∈ render env lang fm range d ↔
  (x = headerOrdered false ∨ x = text (JSON_stringify env fm) ∨ x = newline
   ∨ x = text range)
  ∨ x ∈ renderAnnouncements lang (announcements d)
  ∨ x ∈ renderYoutube (youtube d)
  ∨ x ∈ renderBlogs (blogs d)
  ∨ x ∈ renderOss (oss d).
Proof.
  unfold render. rewrite !elem_of_app, !elem_of_cons, !elem_of_nil. tauto.
Qed.

Set Warnings "-clear-no-such-hyp".

(** X17. The body shows the collected data and nothing else: its bold
    lines are the links of the announcements and its quotations their
    snippets; its fourth-level headings are the titles of the groups;
    every item of a group has its list line; and every text line is the
    front matter, the range line, the line [No updates.] of a run
    without announcements, or the list line of an item of a group. *)
Theorem rendering_is_complete env lang fm range d :
  let R := render env lang fm range d in
  let grouped item :=
    (∃ g, g ∈ youtube d ∧ item ∈ Channel.items g)
    ∨ (∃ g, g ∈ blogs d ∧ item ∈ Channel.items g)
    ∨ (∃ g, g ∈ oss d ∧ item ∈ Project.items g) in
  (∀ s, bold s ∈ R ↔ ∃ item, item ∈ announcements d ∧ s = renderLink item)
  ∧ (∀ s, blockQuote s ∈ R ↔
          ∃ item, item ∈ announcements d ∧ s = interpolate (Item.contentSnippet item))
  ∧ (∀ s, h4 s ∈ R ↔
          (∃ g, g ∈ youtube d ∧ s = Channel.title g)
          ∨ (∃ g, g ∈ blogs d ∧ s = Channel.title g)
          ∨ (∃ g, g ∈ oss d ∧ s = Project.title g))
  ∧ (∀ item, grouped item → text ("- " +:+ renderLink item) ∈ R)
  ∧ (∀ s, text s ∈ R →
          s = JSON_stringify env fm ∨ s = range
          ∨ (s = "No updates." ∧ announcements d = [])
          ∨ ∃ item, grouped item ∧ s = "- " +:+ renderLink item).
Proof.
  cbn zeta. split; [|split; [|split; [|split]]].
  - intros s. rewrite elem_of_render, elem_of_renderAnnouncements, elem_of_renderYoutube,
      elem_of_renderBlogs, elem_of_renderOss.
    setoid_rewrite elem_of_entries. naive_solver.
  - intros s. rewrite elem_of_render, elem_of_renderAnnouncements, elem_of_renderYoutube,
      elem_of_renderBlogs, elem_of_renderOss.
    setoid_rewrite elem_of_entries. naive_solver.
  - intros s. rewrite elem_of_render, elem_of_renderAnnouncements, elem_of_renderYoutube,
      elem_of_renderBlogs, elem_of_renderOss.
    setoid_rewrite elem_of_entries. naive_solver.
  - intros item Hg. rewrite elem_of_render, elem_of_renderYoutube,
      elem_of_renderBlogs, elem_of_renderOss.
    setoid_rewrite elem_of_entries. naive_solver.
  - intros s. rewrite elem_of_render, elem_of_renderAnnouncements, elem_of_renderYoutube,
      elem_of_renderBlogs, elem_of_renderOss.
    setoid_rewrite elem_of_entries. naive_solver.
Qed.

Set Warnings "clear-no-such-hyp".

(** ** Runs that complete, and what they log *)

(** X18. A run on a valid execution time resolves whenever the
    translation service answers every request and the store accepts the
    document, whatever the feeds and the lookup of the earlier object
    answer: an unreachable feed or a missing object never fails the
    run. *)
Theorem feeds_cannot_fail_the_run (env : Env) (event : Event.t) (t : Z) :
  new_Date env (Some (Event.time event)) = Some t →
  Z.abs t <= maxTime - 4 * msPerDay →
  (∀ cmd, ∃ out, TranslateClient_send env cmd = Resolved out) →
  (∀ cmd, S3Client_put env cmd = Resolved ()) →
  ∃ payload, settled (handler env event) = Resolved payload.
Proof. intros Hd Ht Htr Hput. by apply (handler_total env Htr event t). Qed.

(** The Japanese run of Saturday in the second sample deployment, where
    three of the five feeds are unreachable and the store has no earlier
    object. *)
Lemma feeds_cannot_fail_the_run_witness :
  parseURL Sample.envHealthy "https://github.com/aws/aws-cdk/releases.atom"
  = Rejected "Status code 503: https://github.com/aws/aws-cdk/releases.atom"
  ∧ ∃ payload,
      settled (handler Sample.envHealthy (Sample.saturdayRun "ja")) = Resolved payload.
Proof.
  split; [reflexivity|].
  apply (feeds_cannot_fail_the_run Sample.envHealthy (Sample.saturdayRun "ja")
           Sample.saturday);
    [reflexivity | vm_compute; discriminate | intros cmd; by eexists | reflexivity].
Defined.

Lemma console_bind {A B} (m : Async A) (f : A → Async B) b :
  settled (m ≫= f) = Resolved b →
  ∃ a, settled m = Resolved a ∧ settled (f a) = Resolved b
       ∧ console (m ≫= f) = console m ++ console (f a).
Proof.
  unfold mbind, Async_bind. destruct (settled m) as [a|e]; [|done].
  cbn. intros H. by exists a.
Qed.

Lemma console_bind_nil {A B} (m : Async A) (f : A → Async B) :
  console m = [] → (∀ a, console (f a) = []) → console (m ≫= f) = [].
Proof.
  intros Hm Hf. unfold mbind, Async_bind. destruct (settled m) as [a|e]; cbn; [|done].
  by rewrite Hm, Hf.
Qed.

Lemma translate_console env text src tgt : console (translate env text src tgt) = [].
Proof. unfold translate. cbn zeta. by apply console_bind_nil. Qed.

Lemma batch_console env (get : Item.t → MaybeString) (set : MaybeString → Item.t → Item.t)
    src tgt items :
  console (Promise.map (λ item, t ← translate env (get item) src tgt; mret (set t item)) items)
  = [].
Proof.
  induction items as [|x items IH]; cbn [Promise.map]; [done|].
  apply console_bind_nil.
  - apply console_bind_nil; [apply translate_console|done].
  - intros y. by apply console_bind_nil.
Qed.

(** What [getFeed] writes to the console: the error of an unreachable
    feed. *)
Lemma getFeed_console env feedUrl oldest latest :
  console (getFeed env feedUrl oldest latest)
  = match parseURL env feedUrl with Rejected err => [err] | Resolved _ => [] end.
Proof. unfold getFeed. by destruct (parseURL env feedUrl). Qed.

Lemma pushed_console env sourceLang lang (translated : bool) items :
  console (if translated then translateTitles env sourceLang lang items else mret items) = [].
Proof. destruct translated; [apply batch_console|done]. Qed.

Lemma forOf_console {A S} (body : S → A → Async S) (logged : A → list Error) :
  (∀ acc x acc', settled (body acc x) = Resolved acc' → console (body acc x) = logged x) →
  ∀ l acc acc', settled (forOf body l acc) = Resolved acc' →
                console (forOf body l acc) = flat_map logged l.
Proof.
  intros Hbody. induction l as [|x l IH]; intros acc acc'; cbn [forOf flat_map]; [done|].
  intros (acc1 & H1 & H2 & ->)%console_bind.
  by rewrite (Hbody _ _ _ H1), (IH _ _ H2).
Qed.

Section Logged.

Variable env : Env.
Variable lang : string.
Variables o la : Date.

Let logged (feedUrl : string) : list Error :=
  match parseURL env feedUrl with Rejected err => [err] | Resolved _ => [] end.

Lemma playlistBody_console youtube playlist youtube' :
  settled (playlistBody env lang o la youtube playlist) = Resolved youtube' →
  console (playlistBody env lang o la youtube playlist) = logged (playlistFeedUrl playlist).
Proof.
  unfold playlistBody. cbn zeta. intros (feed & Hf & Hr & ->)%console_bind.
  rewrite getFeed_console. fold (logged (playlistFeedUrl playlist)).
  destruct (0 <? length (Feed.items feed))%nat; [|by rewrite app_nil_r].
  apply console_bind in Hr as (r & _ & _ & ->).
  rewrite pushed_console. by rewrite app_nil_r.
Qed.

Lemma japanBlogBody_console blogs blog blogs' :
  settled (japanBlogBody env lang o la blogs blog) = Resolved blogs' →
  console (japanBlogBody env lang o la blogs blog) = logged (japanBlogFeedUrl blog).
Proof.
  unfold japanBlogBody. cbn zeta. intros (feed & Hf & Hr & ->)%console_bind.
  rewrite getFeed_console. fold (logged (japanBlogFeedUrl blog)).
  destruct (0 <? length (Feed.items feed))%nat; [|by rewrite app_nil_r].
  apply console_bind in Hr as (r & _ & _ & ->).
  rewrite pushed_console. by rewrite app_nil_r.
Qed.

Lemma blogBody_console blogs blog blogs' :
  settled (blogBody env lang o la blogs blog) = Resolved blogs' →
  console (blogBody env lang o la blogs blog) = logged (blogFeedUrl blog).
Proof.
  unfold blogBody. cbn zeta. intros (feed & Hf & Hr & ->)%console_bind.
  rewrite getFeed_console. fold (logged (blogFeedUrl blog)).
  destruct (0 <? length (Feed.items feed))%nat; [|by rewrite app_nil_r].
  apply console_bind in Hr as (r & _ & _ & ->).
  rewrite pushed_console. by rewrite app_nil_r.
Qed.

Lemma repoBody_console oss repo oss' :
  settled (repoBody env o la oss repo) = Resolved oss' →
  console (repoBody env o la oss repo) = logged (repoFeedUrl repo).
Proof.
  unfold repoBody. cbn zeta. intros (feed & Hf & Hr & ->)%console_bind.
  rewrite getFeed_console. fold (logged (repoFeedUrl repo)).
  destruct (0 <? length (Feed.items feed))%nat; by rewrite app_nil_r.
Qed.

Lemma fetchAnnouncements_console r :
  settled (fetchAnnouncements env lang o la) = Resolved r →
  console (fetchAnnouncements env lang o la) = logged announcementsFeedUrl.
Proof.
  unfold fetchAnnouncements. cbn zeta. intros (feed & Hf & Hr & ->)%console_bind.
  rewrite getFeed_console. fold (logged announcementsFeedUrl).
  apply console_bind in Hr as (items & _ & _ & ->).
  assert (console (if negb (String.eqb lang "en")
                   then translateSnippets env lang (Feed.items feed)
                   else mret (Feed.items feed)) = []) as ->
    by (destruct (negb _); [apply batch_console|done]).
  by rewrite app_nil_r.
Qed.

End Logged.

Lemma flat_map_fmap {A B C} (f : B → list C) (g : A → B) (l : list A) :
  flat_map f (g <$> l) = flat_map (λ x, f (g x)) l.
Proof. induction l as [|x l IH]; cbn; [done|]. by rewrite IH. Qed.

(** The console of a run that builds its document. *)
Lemma buildDocument_console env event l :
  settled (buildDocument env event) = Resolved l →
  console (buildDocument env event)
  = flat_map (λ feedUrl, match parseURL env feedUrl with
                         | Rejected err => [err]
                         | Resolved _ => []
                         end)
      (announcementsFeedUrl
       :: (playlistFeedUrl <$> Config.youtube_playlists (source env))
       ++ (japanBlogFeedUrl <$> Config.awsJapanBlogs (source env))
       ++ (blogFeedUrl <$> Config.awsBlogs (source env))
       ++ (repoFeedUrl <$> Config.githubRepos (source env))).
Proof.
  unfold buildDocument. destruct (window env event) as [o la] eqn:Hw.
  cbn zeta. intros H.
  apply console_bind in H as (iso & _ & H & ->).
  apply console_bind in H as (date & _ & H & ->).
  apply console_bind in H as (lastmod & _ & H & ->).
  apply console_bind in H as ([tags anns] & Hf & H & ->).
  apply console_bind in H as (yt & Hy & H & ->).
  apply console_bind in H as (jb & Hj & H & ->).
  apply console_bind in H as (bl & Hb & H & ->).
  apply console_bind in H as (os & Ho & H & ->).
  rewrite frontMatterDate_console.
  rewrite (fetchAnnouncements_console _ _ _ _ _ Hf).
  rewrite (forOf_console _ _ (playlistBody_console env _ _ _) _ _ _ Hy).
  rewrite (forOf_console _ _ (japanBlogBody_console env _ _ _) _ _ _ Hj).
  rewrite (forOf_console _ _ (blogBody_console env _ _ _) _ _ _ Hb).
  rewrite (forOf_console _ _ (repoBody_console env _ _) _ _ _ Ho).
  cbn [flat_map console await mret Async_ret app].
  rewrite !flat_map_app, !flat_map_fmap, !app_nil_r. reflexivity.
Qed.

(** X19. A run that resolves has written to the console the errors of
    the unreachable feeds and nothing else: one line for each feed whose
    request failed, in the order in which the handler reads the feeds
    (announcements, playlists, Japanese blogs, blogs, repositories). *)
Theorem unreachable_feeds_are_logged (env : Env) (event : Event.t) (payload : Payload.t) :
  settled (handler env event) = Resolved payload →
  console (handler env event)
  = flat_map (λ feedUrl, match parseURL env feedUrl with
                         | Rejected err => [err]
                         | Resolved _ => []
                         end)
      (announcementsFeedUrl
       :: (playlistFeedUrl <$> Config.youtube_playlists (source env))
       ++ (japanBlogFeedUrl <$> Config.awsJapanBlogs (source env))
       ++ (blogFeedUrl <$> Config.awsBlogs (source env))
       ++ (repoFeedUrl <$> Config.githubRepos (source env))).
Proof.
  unfold handler. intros (l & Hl & H & ->)%console_bind.
  apply console_bind in H as ([] & _ & _ & ->).
  rewrite (buildDocument_console _ _ _ Hl). cbn [console await mret Async_ret app].
  by rewrite !app_nil_r.
Qed.

(** The Saturday run of the sample deployment: the playlist feed, the
    feed of the Japanese blog and the release feed are unreachable. *)
Lemma unreachable_feeds_are_logged_witness :
  console (handler Sample.env (Sample.saturdayRun "en"))
  = ["Status code 503: https://www.youtube.com/feeds/videos.xml?playlist_id=PL0000";
     "Status code 503: https://aws.amazon.com/jp/blogs/news/feed/";
     "Status code 503: https://github.com/aws/aws-cdk/releases.atom"].
Proof.
  assert (H : settled (handler Sample.env (Sample.saturdayRun "en")) = Resolved _)
    by (vm_compute; reflexivity).
  apply (unreachable_feeds_are_logged _ _ _ H).
Defined.

(** ** The thumbnail handler *)

Lemma foldl_emit_settled s cs stream :
  Thumbnail.promise (foldl Thumbnail.emit (Thumbnail.mkCollector cs (Some s)) stream) = Some s.
Proof. revert cs. induction stream as [|[c|e|] stream IH]; intros cs; cbn; auto. Qed.

Lemma foldl_emit_data cs chunks0 rest :
  foldl Thumbnail.emit (Thumbnail.mkCollector cs None) ((Thumbnail.on_data <$> chunks0) ++ rest)
  = foldl Thumbnail.emit (Thumbnail.mkCollector (cs ++ chunks0) None) rest.
Proof.
  revert cs. induction chunks0 as [|c chunks0 IH]; intros cs; cbn.
  - by rewrite app_nil_r.
  - rewrite IH. by rewrite <- app_assoc.
Qed.

Lemma asBuffer_data (chunks0 : list Thumbnail.Buffer) (rest : Thumbnail.Readable) (err : Error) :
  Thumbnail.asBuffer ((Thumbnail.on_data <$> chunks0) ++ Thumbnail.on_end :: rest)
  = Some (Resolved (Thumbnail.Buffer_concat chunks0))
  ∧ Thumbnail.asBuffer ((Thumbnail.on_data <$> chunks0) ++ Thumbnail.on_error err :: rest)
    = Some (Rejected err)
  ∧ Thumbnail.asBuffer (Thumbnail.on_data <$> chunks0) = None.
Proof.
  unfold Thumbnail.asBuffer. split; [|split].
  - rewrite foldl_emit_data. cbn. apply foldl_emit_settled.
  - rewrite foldl_emit_data. cbn. apply foldl_emit_settled.
  - rewrite <- (app_nil_r (Thumbnail.on_data <$> chunks0)), foldl_emit_data. done.
Qed.

(** Every stream is a run of chunks followed by nothing, an end or an
    error. *)
Lemma stream_shape (stream : Thumbnail.Readable) :
  ∃ chunks0,
    stream = Thumbnail.on_data <$> chunks0
    ∨ (∃ rest, stream = (Thumbnail.on_data <$> chunks0) ++ Thumbnail.on_end :: rest)
    ∨ (∃ err rest, stream = (Thumbnail.on_data <$> chunks0) ++ Thumbnail.on_error err :: rest).
Proof.
  induction stream as [|[c|e|] stream (cs & IH)].
  - exists []. by left.
  - exists (c :: cs). destruct IH as [->|[(rest & ->)|(err & rest & ->)]]; eauto.
  - exists []. right. right. by exists e, stream.
  - exists []. right. left. by exists stream.
Qed.

(** X20. [asBuffer] resolves exactly on a stream whose first event that
    is not a chunk is its end, to the chunks before it joined in order;
    it rejects exactly when that event is an error, with that error; and
    it never settles exactly when the stream emits chunks only. *)
Theorem asBuffer_outcome (stream : Thumbnail.Readable) :
  (∀ b, Thumbnail.asBuffer stream = Some (Resolved b)
        ↔ ∃ chunks0 rest, stream = (Thumbnail.on_data <$> chunks0) ++ Thumbnail.on_end :: rest
                          ∧ b = Thumbnail.Buffer_concat chunks0)
  ∧ (∀ err, Thumbnail.asBuffer stream = Some (Rejected err)
            ↔ ∃ chunks0 rest,
                stream = (Thumbnail.on_data <$> chunks0) ++ Thumbnail.on_error err :: rest)
  ∧ (Thumbnail.asBuffer stream = None ↔ ∃ chunks0, stream = Thumbnail.on_data <$> chunks0).
Proof.
  split; [|split].
  - intros b. split.
    + intros H. destruct (stream_shape stream) as (cs & [->|[(rest & ->)|(e & rest & ->)]]).
      * by rewrite (proj2 (proj2 (asBuffer_data cs [] ""))) in H.
      * rewrite (proj1 (asBuffer_data cs rest "")) in H. injection H as <-. by exists cs, rest.
      * by rewrite (proj1 (proj2 (asBuffer_data cs rest e))) in H.
    + intros (cs & rest & -> & ->). apply (asBuffer_data cs rest "").
  - intros err. split.
    + intros H. destruct (stream_shape stream) as (cs & [->|[(rest & ->)|(e & rest & ->)]]).
      * by rewrite (proj2 (proj2 (asBuffer_data cs [] ""))) in H.
      * by rewrite (proj1 (asBuffer_data cs rest "")) in H.
      * rewrite (proj1 (proj2 (asBuffer_data cs rest e))) in H. injection H as <-.
        by exists cs, rest.
    + intros (cs & rest & ->). apply (asBuffer_data cs rest err).
  - split.
    + intros H. destruct (stream_shape stream) as (cs & [->|[(rest & ->)|(e & rest & ->)]]).
      * by exists cs.
      * by rewrite (proj1 (asBuffer_data cs rest "")) in H.
      * by rewrite (proj1 (proj2 (asBuffer_data cs rest e))) in H.
    + intros (cs & ->). apply (asBuffer_data cs [] "").
Qed.

(** The handler waits for the icon first and settles once it has it. *)
Lemma thumbnail_handler_icon env event :
  ∃ k : Thumbnail.Buffer → Thumbnail.Task unit,
    Thumbnail.handler env event
    = Thumbnail.andThen
        (Thumbnail.getObject env (Thumbnail.bucketName env) (Thumbnail.iconPath env)) k
    ∧ ∀ icon, k icon ≠ None.
Proof.
  unfold Thumbnail.handler, Thumbnail.genThumbnailImage. cbn zeta.
  eexists (λ icon, Thumbnail.andThen
                     (Thumbnail.andThen (Some (Thumbnail.loadImage env icon)) _) _).
  split.
  - by destruct (Thumbnail.getObject env _ _) as [[]|].
  - intros icon. cbn. by destruct (Thumbnail.loadImage env icon).
Qed.

(** X21. The thumbnail handler never settles exactly when the store
    hands out an icon whose stream emits chunks only; when the stream
    fails before it ends, the handler rejects with the error of the
    stream, and when the store refuses the icon, with the error of the
    store. *)
Theorem thumbnail_waits_for_the_icon (env : Thumbnail.Env) (event : Thumbnail.Event)
    (icon := Thumbnail.mkGet (Thumbnail.bucketName env) (Thumbnail.iconPath env)) :
  (Thumbnail.handler env event = None
   ↔ ∃ chunks0, Thumbnail.S3Client_get env icon = Resolved (Thumbnail.on_data <$> chunks0))
  ∧ (∀ chunks0 err rest,
       Thumbnail.S3Client_get env icon
       = Resolved ((Thumbnail.on_data <$> chunks0) ++ Thumbnail.on_error err :: rest) →
       Thumbnail.handler env event = Some (Rejected err))
  ∧ (∀ err, Thumbnail.S3Client_get env icon = Rejected err →
            Thumbnail.handler env event = Some (Rejected err)).
Proof.
  destruct (thumbnail_handler_icon env event) as (k & -> & Hk).
  unfold Thumbnail.getObject. cbn zeta. fold icon.
  split; [|split].
  - destruct (Thumbnail.S3Client_get env icon) as [stream|e]; cbn.
    + split.
      * intros H.
        destruct (stream_shape stream) as (cs & [->|[(rest & ->)|(e & rest & ->)]]).
        -- by exists cs.
        -- rewrite (proj1 (asBuffer_data cs rest "")) in H. by apply Hk in H.
        -- by rewrite (proj1 (proj2 (asBuffer_data cs rest e))) in H.
      * intros [cs [= ->]]. by rewrite (proj2 (proj2 (asBuffer_data cs [] ""))).
    + split; [done|]. by intros [cs ?].
  - intros cs err rest ->. cbn. by rewrite (proj1 (proj2 (asBuffer_data cs rest err))).
  - by intros err ->.
Qed.

(** The sample deployment whose icon stream breaks after its first
    chunk. *)
Lemma thumbnail_waits_for_the_icon_witness :
  Thumbnail.handler Sample.brokenIconEnv
    (Thumbnail.mkEvent (Payload.mk "en" "2022-03-04" "AWS News Headlines" "" "headlines/20220304"))
  = Some (Rejected "ECONNRESET").
Proof.
  apply (proj1 (proj2 (thumbnail_waits_for_the_icon Sample.brokenIconEnv _))
           [[Byte.x89; Byte.x50]] "ECONNRESET" [Thumbnail.on_end]).
  reflexivity.
Defined.

Lemma thumbnail_handler_resolved tenv event :
  Thumbnail.handler tenv event = Some (Resolved ()) →
  ∃ image,
    Thumbnail.S3Client_put tenv
      (Thumbnail.mkPutImage (Thumbnail.bucketName tenv)
         (Thumbnail.hugoContentPath tenv +:+ "/" +:+ Payload.urlPath (Thumbnail.Payload event)
          +:+ "/thumbnail." +:+ Payload.lang (Thumbnail.Payload event) +:+ ".png")
         image "image/png")
    = Resolved ().
Proof.
  unfold Thumbnail.handler. cbn zeta.
  destruct (Thumbnail.genThumbnailImage _ _ _ _ _) as [[image|e]|]; cbn; [|done..].
  intros [= H]. by exists image.
Qed.

(** X22. When the digest run and the thumbnail run that takes its output
    both resolve, the store has accepted the document under
    [<content path>/<urlPath>/index.<lang>.md] and a PNG image under
    [<content path>/<urlPath>/thumbnail.<lang>.png], with the [urlPath]
    and the language of the digest run and the content path of each
    function. *)
Theorem thumbnail_beside_document (env : Env) (tenv : Thumbnail.Env) (event : Event.t)
    (payload : Payload.t) :
  settled (handler env event) = Resolved payload →
  Thumbnail.handler tenv (Thumbnail.mkEvent payload) = Some (Resolved ()) →
  ∃ l image,
    settled (buildDocument env event) = Resolved l
    ∧ S3Client_put env
        (mkPut (bucketName env)
           (hugoContentPath env +:+ "/" +:+ urlPath l +:+ "/index." +:+ Event.lang event +:+ ".md")
           (toMarkdown env (mdBody l)) "text/markdown; charset=UTF-8"
           (put_Metadata (putObjectCommand env l)))
      = Resolved ()
    ∧ Thumbnail.S3Client_put tenv
        (Thumbnail.mkPutImage (Thumbnail.bucketName tenv)
           (Thumbnail.hugoContentPath tenv +:+ "/" +:+ urlPath l +:+ "/thumbnail."
            +:+ Event.lang event +:+ ".png")
           image "image/png")
      = Resolved ().
Proof.
  intros (l & Hl & Hput & ->)%handler_resolved (image & Himg)%thumbnail_handler_resolved.
  exists l, image. split; [done|]. split; [|exact Himg].
  destruct (buildDocument_names env event l Hl) as (t & o & _ & _ & _ & _ & Hkey & _).
  rewrite <- Hkey. exact Hput.
Qed.

(** The Saturday run of the sample deployment followed by the thumbnail
    run. *)
Lemma thumbnail_beside_document_witness :
  ∃ l image,
    settled (buildDocument Sample.env (Sample.saturdayRun "en")) = Resolved l
    ∧ S3Client_put Sample.env
        (mkPut "bucket" ("content" +:+ "/" +:+ urlPath l +:+ "/index." +:+ "en" +:+ ".md")
           (toMarkdown Sample.env (mdBody l)) "text/markdown; charset=UTF-8"
           (put_Metadata (putObjectCommand Sample.env l)))
      = Resolved ()
    ∧ Thumbnail.S3Client_put Sample.thumbnailEnv
        (Thumbnail.mkPutImage "bucket"
           ("content" +:+ "/" +:+ urlPath l +:+ "/thumbnail." +:+ "en" +:+ ".png")
           image "image/png")
      = Resolved ().
Proof.
  assert (H : settled (handler Sample.env (Sample.saturdayRun "en")) = Resolved _)
    by (vm_compute; reflexivity).
  apply (thumbnail_beside_document Sample.env Sample.thumbnailEnv _ _ H).
  reflexivity.
Defined.
